(** * GitHubRepositorySearcher: the search orchestration core

    A shallow embedding of [src/Untitled-3.js] (class
    [GitHubRepositorySearcher]): the query builder, the cache key, the
    cache with its time-to-live, the abort/fetch protocol of
    [searchRepositories], the input handlers and the random pick.

    JavaScript strings are sequences of UTF-16 code units, modelled as
    [list N].  The [Map] used as cache is a [gmap] keyed by such strings.
    The object's mutable fields and the part of the DOM the handlers
    read and write form the record [State]; every method is a function
    [State -> State].  An [await] splits [searchRepositories] in two: the
    synchronous part up to [fetch], and the continuation that runs when
    the promise settles.

    Left out, as they do not touch that state: the rendering of a card,
    particles and mouse effects, the intersection observer and the
    preference store (its only trace is the initial value of the two
    form fields).  The provider's JSON is taken to be well formed. *)

From Stdlib Require Import ZArith NArith List Bool String Ascii Lia.
From stdpp Require Import base option list gmap.

Import ListNotations.
Local Open Scope Z_scope.

(** ** JavaScript strings *)

Module JS.

(** A string is its list of UTF-16 code units. *)
Definition jsstring := list N.

(** A string literal of the source (all literals used here are ASCII). *)
Definition lit (s : String.string) : jsstring :=
  List.map N_of_ascii (list_ascii_of_string s).

(** Truthiness of a string: [''] is falsy, every other string is truthy. *)
Definition truthy (s : jsstring) : bool :=
  match s with
  | [] => false
  | _ :: _ => true
  end.

(** White space and line terminators, as removed by
    [String.prototype.trim]. *)
Definition is_space (c : N) : bool :=
  ((9 <=? c) && (c <=? 13) || (c =? 32) || (c =? 160) || (c =? 5760)
   || (8192 <=? c) && (c <=? 8202) || (c =? 8232) || (c =? 8233)
   || (c =? 8239) || (c =? 8287) || (c =? 12288) || (c =? 65279))%N.

Fixpoint trimStart (s : jsstring) : jsstring :=
  match s with
  | [] => []
  | c :: r => if is_space c then trimStart r else s
  end.

Definition trim (s : jsstring) : jsstring :=
  rev (trimStart (rev (trimStart s))).

(** *** [btoa] *)

(** The base64 alphabet: [A-Z], [a-z], [0-9], [+], [/]. *)
Definition b64digit (n : N) : N :=
  (if n <? 26 then 65 + n
   else if n <? 52 then 97 + (n - 26)
   else if n <? 62 then 48 + (n - 52)
   else if n =? 62 then 43
   else 47)%N.

Definition pad : N := 61%N.

(** Base64 of a sequence of bytes, three bytes to four digits. *)
Fixpoint base64 (bytes : list N) : jsstring :=
  match bytes with
  | [] => []
  | [a] =>
      [b64digit (a / 4); b64digit (a mod 4 * 16); pad; pad]%N
  | [a; b] =>
      [b64digit (a / 4); b64digit (a mod 4 * 16 + b / 16);
       b64digit (b mod 16 * 4); pad]%N
  | a :: b :: c :: rest =>
      [b64digit (a / 4); b64digit (a mod 4 * 16 + b / 16);
       b64digit (b mod 16 * 4 + c / 64); b64digit (c mod 64)]%N
      ++ base64 rest
  end.

(** [btoa] takes a "binary string": it throws [InvalidCharacterError]
    (here [None]) when a code unit is above 255. *)
Definition latin1 (s : jsstring) : bool := forallb (fun c => (c <=? 255)%N) s.

Definition btoa (s : jsstring) : option jsstring :=
  if latin1 s then Some (base64 s) else None.

End JS.

Import JS.

(** ** Query builder and cache key *)

(** [buildSearchQuery(language, searchTerm)]. *)
Definition buildSearchQuery (language searchTerm : jsstring) : jsstring :=
  let query :=
    if truthy searchTerm && truthy language then
      searchTerm ++ lit " language:" ++ language
    else if truthy language then
      lit "language:" ++ language
    else
      searchTerm in
  query ++ lit " stars:>10".

(** [getCacheKey(query)]; [None] when [btoa] throws. *)
Definition getCacheKey (query : jsstring) : option jsstring :=
  match btoa query with
  | Some b => Some (lit "github_search_" ++ b)
  | None => None
  end.

(** ** Data model *)

(** An item of the provider's response; the orchestration core never
    looks inside. *)
Record RepositoryItem := mkRepo {
  repo_name : jsstring;
  html_url : jsstring;
  stargazers_count : Z
}.

(** The parsed JSON body [{ total_count, items }]. *)
Record SearchResultSet := mkData {
  total_count : Z;
  items : list RepositoryItem
}.

(** A value of [this.cache]: [{ data, timestamp }]. *)
Record CacheEntry := mkEntry {
  data : SearchResultSet;
  timestamp : Z
}.

(** [error.message] in the [catch] block: either the [Error] thrown for
    [!response.ok], or the message of a transport or parse failure. *)
Inductive ErrorMessage :=
| HttpError (status : Z) (statusText : jsstring)
| OtherError (message : jsstring).

(** The calls of [showStatus(type, message)] made by the class, one
    constructor per call site. *)
Inductive Outcome :=
| PromptSubmit                  (* 'empty', "Por favor selecciona un lenguaje o ..." *)
| PromptStart                   (* 'empty', "Selecciona un lenguaje o ... para comenzar" *)
| Loading                       (* 'loading', spinner *)
| Success (d : SearchResultSet) (* 'success', "Se encontraron <total_count> repositorios" *)
| NoResults                     (* 'empty', "No se encontraron repositorios ..." *)
| Failure (m : ErrorMessage).   (* 'error', message and retry button *)

(** A pending [fetch]: the query it was issued for, the cache key its
    continuation holds, and whether its signal was aborted. *)
Record Request := mkRequest {
  rid : nat;
  rquery : jsstring;
  rkey : jsstring;
  raborted : bool
}.

(** What the provider (or the transport) answers to a pending [fetch]. *)
Inductive Response :=
| RespOk (d : SearchResultSet)                   (* response.ok, body parsed *)
| RespNotOk (status : Z) (statusText : jsstring) (* !response.ok *)
| RespFail (message : jsstring).                 (* fetch or json() rejected *)

Definition CACHE_DURATION : Z := 5 * 60 * 1000.
Definition DEBOUNCE_DELAY : Z := 800.

(** The fields of the object, the DOM elements it reads and writes, the
    pending promises, and two ghost fields: [issued], the number of
    [fetch] calls made so far (it also names the next request), and
    [history], every [showStatus] call, newest first. *)
Record State := mkState {
  languageValue : jsstring;      (* elements.languageSelect.value *)
  searchTermValue : jsstring;    (* elements.searchTermInput.value *)
  searchTimeout : option (Z * jsstring * jsstring);
                                 (* the armed debounce timer: when it is due
                                    and the (language, searchTerm) of its closure *)
  currentResults : list RepositoryItem;
  isLoading : bool;
  cache : gmap (list N) CacheEntry;
  abortController : option nat;  (* the controller of request [n], or null *)
  statusDiv : option Outcome;    (* None: class 'status', no message *)
  resultsDiv : list RepositoryItem;
  refreshHidden : bool;          (* refreshBtn carries class 'hidden' *)
  inflight : list Request;
  issued : nat;
  history : list Outcome
}.

Definition set_languageValue v s :=
  mkState v (searchTermValue s) (searchTimeout s) (currentResults s)
    (isLoading s) (cache s) (abortController s) (statusDiv s) (resultsDiv s)
    (refreshHidden s) (inflight s) (issued s) (history s).
Definition set_searchTermValue v s :=
  mkState (languageValue s) v (searchTimeout s) (currentResults s)
    (isLoading s) (cache s) (abortController s) (statusDiv s) (resultsDiv s)
    (refreshHidden s) (inflight s) (issued s) (history s).
Definition set_searchTimeout v s :=
  mkState (languageValue s) (searchTermValue s) v (currentResults s)
    (isLoading s) (cache s) (abortController s) (statusDiv s) (resultsDiv s)
    (refreshHidden s) (inflight s) (issued s) (history s).
Definition set_currentResults v s :=
  mkState (languageValue s) (searchTermValue s) (searchTimeout s) v
    (isLoading s) (cache s) (abortController s) (statusDiv s) (resultsDiv s)
    (refreshHidden s) (inflight s) (issued s) (history s).
Definition set_isLoading v s :=
  mkState (languageValue s) (searchTermValue s) (searchTimeout s)
    (currentResults s) v (cache s) (abortController s) (statusDiv s)
    (resultsDiv s) (refreshHidden s) (inflight s) (issued s) (history s).
Definition set_cache v s :=
  mkState (languageValue s) (searchTermValue s) (searchTimeout s)
    (currentResults s) (isLoading s) v (abortController s) (statusDiv s)
    (resultsDiv s) (refreshHidden s) (inflight s) (issued s) (history s).
Definition set_abortController v s :=
  mkState (languageValue s) (searchTermValue s) (searchTimeout s)
    (currentResults s) (isLoading s) (cache s) v (statusDiv s)
    (resultsDiv s) (refreshHidden s) (inflight s) (issued s) (history s).
Definition set_statusDiv v s :=
  mkState (languageValue s) (searchTermValue s) (searchTimeout s)
    (currentResults s) (isLoading s) (cache s) (abortController s) v
    (resultsDiv s) (refreshHidden s) (inflight s) (issued s) (history s).
Definition set_resultsDiv v s :=
  mkState (languageValue s) (searchTermValue s) (searchTimeout s)
    (currentResults s) (isLoading s) (cache s) (abortController s)
    (statusDiv s) v (refreshHidden s) (inflight s) (issued s) (history s).
Definition set_refreshHidden v s :=
  mkState (languageValue s) (searchTermValue s) (searchTimeout s)
    (currentResults s) (isLoading s) (cache s) (abortController s)
    (statusDiv s) (resultsDiv s) v (inflight s) (issued s) (history s).
Definition set_inflight v s :=
  mkState (languageValue s) (searchTermValue s) (searchTimeout s)
    (currentResults s) (isLoading s) (cache s) (abortController s)
    (statusDiv s) (resultsDiv s) (refreshHidden s) v (issued s) (history s).
Definition set_issued v s :=
  mkState (languageValue s) (searchTermValue s) (searchTimeout s)
    (currentResults s) (isLoading s) (cache s) (abortController s)
    (statusDiv s) (resultsDiv s) (refreshHidden s) (inflight s) v (history s).
Definition set_history v s :=
  mkState (languageValue s) (searchTermValue s) (searchTimeout s)
    (currentResults s) (isLoading s) (cache s) (abortController s)
    (statusDiv s) (resultsDiv s) (refreshHidden s) (inflight s) (issued s) v.

(** The state the constructor leaves, after [loadFromLocalStorage] has
    restored the two form fields (both [''] when nothing was saved). *)
Definition init (language searchTerm : jsstring) : State :=
  mkState language searchTerm None [] false ∅ None None [] true [] 0%nat [].

(** ** Rendering helpers *)

Definition showStatus (o : Outcome) (s : State) : State :=
  set_history (o :: history s) (set_statusDiv (Some o) s).

Definition clearResults (s : State) : State :=
  set_refreshHidden true (set_resultsDiv [] s).

Definition displayResults (repositories : list RepositoryItem) (s : State) : State :=
  set_resultsDiv repositories s.

(** [handleSearchSuccess(data)]. *)
Definition handleSearchSuccess (d : SearchResultSet) (s : State) : State :=
  match items d with
  | _ :: _ =>
      set_refreshHidden false
        (showStatus (Success d)
           (displayResults (items d)
              (set_currentResults (items d) s)))
  | [] => showStatus NoResults s
  end.

(** ** The request protocol *)

(** [controller.abort()]: the pending fetch that listens to the signal
    of controller [c] is marked; its promise rejects with [AbortError]. *)
Definition abort (c : nat) (s : State) : State :=
  set_inflight
    (List.map (fun r => if Nat.eqb (rid r) c
                        then mkRequest (rid r) (rquery r) (rkey r) true
                        else r)
       (inflight s)) s.

(** The [finally] block. *)
Definition finally (s : State) : State :=
  set_abortController None (set_isLoading false s).

(** From [this.isLoading = true] to the call of [fetch]. *)
Definition startFetch (query cacheKey : jsstring) (s : State) : State :=
  let id := issued s in
  let s := set_isLoading true s in
  let s := set_abortController (Some id) s in
  let s := showStatus Loading s in
  let s := clearResults s in
  let s := set_refreshHidden true s in
  set_issued (S id)
    (set_inflight (inflight s ++ [mkRequest id query cacheKey false]) s).

(** The first statement of [searchRepositories]: abort the tracked
    request when [isLoading] is set. *)
Definition abortIfLoading (s : State) : State :=
  if isLoading s then
    match abortController s with
    | Some c => abort c s
    | None => s
    end
  else s.

(** [searchRepositories(language, searchTerm)] up to its first [await];
    [now] is the value of [Date.now()].  When [getCacheKey] throws, the
    promise of the call rejects and nothing after that line runs. *)
Definition searchRepositories (now : Z) (language searchTerm : jsstring)
    (s : State) : State :=
  let s := abortIfLoading s in
  let query := buildSearchQuery language searchTerm in
  match getCacheKey query with
  | None => s
  | Some cacheKey =>
      match cache s !! cacheKey with
      | Some cachedData =>
          if now - timestamp cachedData <? CACHE_DURATION then
            handleSearchSuccess (data cachedData) s
          else startFetch query cacheKey s
      | None => startFetch query cacheKey s
      end
  end.

Definition find_request (id : nat) (s : State) : option Request :=
  List.find (fun r => Nat.eqb (rid r) id) (inflight s).

Definition remove_request (id : nat) (s : State) : State :=
  set_inflight (List.filter (fun r => negb (Nat.eqb (rid r) id)) (inflight s)) s.

(** The rest of [searchRepositories] for request [id], run when its
    fetch settles with [resp] at time [now]: the [try] body after the
    [await], the [catch] block and the [finally] block.  A request that
    is not pending, or whose signal was aborted, cannot receive a
    response. *)
Definition settle (now : Z) (id : nat) (resp : Response) (s : State) : State :=
  match find_request id s with
  | Some r =>
      if raborted r then s
      else
        let s := remove_request id s in
        match resp with
        | RespOk d =>
            let s := set_cache (<[rkey r := mkEntry d now]> (cache s)) s in
            finally (handleSearchSuccess d s)
        | RespNotOk status statusText =>
            finally (showStatus (Failure (HttpError status statusText)) s)
        | RespFail message =>
            finally (showStatus (Failure (OtherError message)) s)
        end
  | None => s
  end.

(** The continuations of the aborted requests.  Each is rejected with
    [AbortError]: the [catch] block returns at once and the [finally]
    block runs.  They are microtasks, so they run when the task that
    called [abort] has finished its synchronous part. *)
Definition settleAborted (s : State) : State :=
  if existsb raborted (inflight s) then
    finally (set_inflight (List.filter (fun r => negb (raborted r)) (inflight s)) s)
  else s.

(** ** Handlers *)

Definition handleFormSubmit (now : Z) (s : State) : State :=
  let language := languageValue s in
  let searchTerm := trim (searchTermValue s) in
  if negb (truthy language) && negb (truthy searchTerm) then
    showStatus PromptSubmit s
  else searchRepositories now language searchTerm s.

Definition handleLanguageChange (now : Z) (s : State) : State :=
  let language := languageValue s in
  let searchTerm := trim (searchTermValue s) in
  if truthy language then searchRepositories now language searchTerm s
  else if negb (truthy searchTerm) then clearResults (showStatus PromptStart s)
  else s.

(** [handleSearchTermInput(e)]; [e.target.value] is the input's value. *)
Definition handleSearchTermInput (now : Z) (s : State) : State :=
  let s := set_searchTimeout None s in
  let language := languageValue s in
  let searchTerm := trim (searchTermValue s) in
  if (3 <=? length searchTerm)%nat || truthy language then
    set_searchTimeout (Some (now + DEBOUNCE_DELAY, language, searchTerm)) s
  else if negb (truthy searchTerm) && negb (truthy language) then
    clearResults (showStatus PromptStart s)
  else s.

Definition retrySearch (now : Z) (s : State) : State :=
  let language := languageValue s in
  let searchTerm := trim (searchTermValue s) in
  searchRepositories now language searchTerm s.

(** [showRandomRepository()]; [Math.random()] returned [p/q], a number
    in the interval from 0 (included) to 1 (excluded). *)
Definition showRandomRepository (p q : nat) (s : State) : State :=
  match currentResults s with
  | _ :: _ =>
      let randomIndex := (p * length (currentResults s) / q)%nat in
      match nth_error (currentResults s) randomIndex with
      | Some randomRepo => displayResults [randomRepo] s
      | None => s
      end
  | [] => s
  end.

(** ** The event loop *)

(** What the browser can deliver to the object. *)
Inductive Event :=
| EvSubmit                          (* 'submit' on the form *)
| EvLanguageChange (v : jsstring)   (* the select now holds [v]; 'change' *)
| EvInput (v : jsstring)            (* the input now holds [v]; 'input' *)
| EvTimer                           (* the debounce timer fires, once due *)
| EvRetry                           (* app.retrySearch() *)
| EvRandom (p q : nat)              (* click on refreshBtn *)
| EvEscape                          (* keydown 'Escape' *)
| EvDwell                           (* the 3 s timer armed by a success banner *)
| EvSettle (id : nat) (resp : Response).

Definition handle (now : Z) (e : Event) (s : State) : State :=
  match e with
  | EvSubmit => handleFormSubmit now s
  | EvLanguageChange v => handleLanguageChange now (set_languageValue v s)
  | EvInput v => handleSearchTermInput now (set_searchTermValue v s)
  | EvTimer =>
      match searchTimeout s with
      | Some (due, language, searchTerm) =>
          if due <=? now then
            searchRepositories now language searchTerm (set_searchTimeout None s)
          else s
      | None => s
      end
  | EvRetry => retrySearch now s
  | EvRandom p q => showRandomRepository p q s
  | EvEscape => clearResults s
  | EvDwell =>
      match statusDiv s with
      | Some (Success _) => set_statusDiv None s
      | _ => s
      end
  | EvSettle id resp => settle now id resp s
  end.

(** One task of the event loop at time [now]: the handler, then the
    microtasks it left behind. *)
Definition step (now : Z) (e : Event) (s : State) : State :=
  settleAborted (handle now e s).

(** A run: timed events, oldest first. *)
Fixpoint run (tr : list (Z * Event)) (s : State) : State :=
  match tr with
  | [] => s
  | (now, e) :: tr' => run tr' (step now e s)
  end.

(** The fetches that are on the network: pending and not aborted. *)
Definition live (s : State) : list Request :=
  List.filter (fun r => negb (raborted r)) (inflight s).

(** A resolution run as a task of its own: every trigger that searches
    ends in this call, followed by the microtasks of the aborted
    requests. *)
Definition resolve (now : Z) (language searchTerm : jsstring) (s : State) : State :=
  settleAborted (searchRepositories now language searchTerm s).

(** The term "日本語", as UTF-16 code units. *)
Definition nihongo : jsstring := [26085; 26412; 35486]%N.

(** ** Notions used by the properties *)

(** The item list of the most recent non-empty success among the
    statuses shown ([h] is newest first); [[]] when there is none. *)
Fixpoint last_nonempty (h : list Outcome) : list RepositoryItem :=
  match h with
  | [] => []
  | Success d :: h' =>
      match items d with
      | [] => last_nonempty h'
      | _ :: _ => items d
      end
  | _ :: h' => last_nonempty h'
  end.

(** No non-empty success was ever shown. *)
Definition never_succeeded (h : list Outcome) : Prop :=
  forall d, In (Success d) h -> items d = [].

(** Request identifiers are handed out in order: every pending request
    was issued before the next identifier. *)
Definition ids_bounded (s : State) : Prop :=
  Forall (fun r => (rid r < issued s)%nat) (inflight s).

(** [currentResults] is what the most recent non-empty success left. *)
Definition retained (s : State) : Prop :=
  currentResults s = last_nonempty (history s).

(** After a task no aborted request is left pending. *)
Definition clean (s : State) : Prop := existsb raborted (inflight s) = false.

(** ** Sample data *)

Definition repoA : RepositoryItem :=
  mkRepo (lit "alpha") (lit "https://github.com/o/alpha") 1200.
Definition repoB : RepositoryItem :=
  mkRepo (lit "beta") (lit "https://github.com/o/beta") 300.

Definition sample : SearchResultSet := mkData 2 [repoA; repoB].
Definition other : SearchResultSet := mkData 1 [repoB].
Definition nothing : SearchResultSet := mkData 0 [].

(** A run that ends with results on display and then a failed search:
    the term "abc" is typed, the timer fires, the provider answers with
    [sample]; then "abcd" is typed, the timer fires, the provider
    answers 503. *)
Definition failed_after_success : list (Z * Event) :=
  [ (0, EvInput (lit "abc")); (800, EvTimer);
    (900, EvSettle 0 (RespOk sample));
    (2000, EvInput (lit "abcd")); (2800, EvTimer);
    (2900, EvSettle 1 (RespNotOk 503 (lit "Service Unavailable"))) ].

(** The cache entry stored for a query, if any. *)
Definition cached (query : jsstring) (s : State) : option CacheEntry :=
  match getCacheKey query with
  | Some cacheKey => cache s !! cacheKey
  | None => None
  end.

(** Three language selections in a row, each made before the fetch of
    the previous one has settled. *)
Definition three_triggers : list (Z * Event) :=
  [ (0, EvLanguageChange (lit "Go"));
    (10, EvLanguageChange (lit "Rust"));
    (20, EvLanguageChange (lit "Dart")) ].

(** A search whose provider answer has no items. *)
Definition empty_answer : list (Z * Event) :=
  [ (0, EvLanguageChange (lit "Go"));
    (100, EvSettle 0 (RespOk nothing)) ].

(** Results on display for the term "abc", no language selected. *)
Definition results_shown : list (Z * Event) :=
  [ (0, EvInput (lit "abc")); (800, EvTimer);
    (900, EvSettle 0 (RespOk sample)) ].

(** The term "abc" is searched and then deleted while the fetch is
    pending; the answer [resp] arrives after the form was emptied. *)
Definition answered_after_reset (resp : Response) : list (Z * Event) :=
  [ (0, EvInput (lit "abc")); (800, EvTimer);
    (900, EvInput []);
    (1000, EvSettle 0 resp) ].

(** The search for "abc" fails with status 503; the user then shortens
    the term to "ab", which arms no search and leaves the error banner
    with its retry button in place. *)
Definition failed_then_edited : list (Z * Event) :=
  [ (0, EvInput (lit "abc")); (800, EvTimer);
    (900, EvSettle 0 (RespNotOk 503 (lit "Service Unavailable")));
    (1000, EvInput (lit "ab")) ].

(** ** Relative dates *)

(** The strings [getRelativeTime] can return, one constructor per
    template: 'Hoy', 'Ayer', 'Hace n días', 'Hace n semanas',
    'Hace n meses', 'Hace n años'. *)
Inductive RelativeTime :=
| Hoy
| Ayer
| HaceDias (n : Z)
| HaceSemanas (n : Z)
| HaceMeses (n : Z)
| HaceAnos (n : Z).

Definition MS_PER_DAY : Z := 1000 * 60 * 60 * 24.

(** [getRelativeTime(date)], with [now] the value of [new Date()]; both
    are time values in milliseconds ([date] is a valid date).  Time
    values are integers of magnitude at most 8.64e15, so the difference
    is exact and its quotient by 86400000 lies far enough from the next
    integer for [Math.floor] to return the integer quotient. *)
Definition getRelativeTime (now date : Z) : RelativeTime :=
  let diffTime := Z.abs (now - date) in
  let diffDays := diffTime / MS_PER_DAY in
  if diffDays =? 0 then Hoy
  else if diffDays =? 1 then Ayer
  else if diffDays <? 7 then HaceDias diffDays
  else if diffDays <? 30 then HaceSemanas (diffDays / 7)
  else if diffDays <? 365 then HaceMeses (diffDays / 30)
  else HaceAnos (diffDays / 365).

(** The age in whole days a label stands for: its number times the
    length of its unit. *)
Definition label_days (l : RelativeTime) : Z :=
  match l with
  | Hoy => 0
  | Ayer => 1
  | HaceDias n => n
  | HaceSemanas n => 7 * n
  | HaceMeses n => 30 * n
  | HaceAnos n => 365 * n
  end.

(** The length in days of the unit of a label. *)
Definition label_unit (l : RelativeTime) : Z :=
  match l with
  | Hoy | Ayer | HaceDias _ => 1
  | HaceSemanas _ => 7
  | HaceMeses _ => 30
  | HaceAnos _ => 365
  end.

(** ** Teardown *)

(** [destroy()]: the debounce timer is cleared, the controller (when
    not null) is aborted, the cache is emptied.  The intersection
    observer is not part of the state. *)
Definition destroy (s : State) : State :=
  let s := set_searchTimeout None s in
  let s :=
    match abortController s with
    | Some c => abort c s
    | None => s
    end in
  set_cache ∅ s.

(** ** Further notions *)

(** What is on screen comes from the retained result set, and the
    refresh button is visible only above a rendered list. *)
Definition rendered_from_retained (s : State) : Prop :=
  (forall r, In r (resultsDiv s) -> In r (currentResults s)) /\
  (refreshHidden s = false -> resultsDiv s <> []).

(** The requests and the cache entries are filed under the key of a
    query. *)
Definition keys_consistent (s : State) : Prop :=
  Forall (fun r => getCacheKey (rquery r) = Some (rkey r)) (inflight s) /\
  (forall k, is_Some (cache s !! k) -> exists q, getCacheKey q = Some k).

(** How far [isLoading] and [abortController] can be trusted: they are
    set together, and when set the controller is the one of the most
    recent fetch, which is pending. *)
Definition tracking (s : State) : Prop :=
  match abortController s with
  | None => isLoading s = false
  | Some c =>
      isLoading s = true /\ S c = issued s /\
      exists r, In r (inflight s) /\ rid r = c
  end.

(** The three facts that every task of the event loop re-establishes. *)
Definition well_tracked (s : State) : Prop :=
  clean s /\ ids_bounded s /\ tracking s.

(** The state between two bursts of retries for the language "Go":
    nothing tracked, nothing cached, [n] requests pending. *)
Definition untracked_backlog (n : nat) (s : State) : Prop :=
  isLoading s = false /\ abortController s = None /\ cache s = ∅ /\
  clean s /\ ids_bounded s /\ length (inflight s) = n /\
  languageValue s = lit "Go" /\ searchTermValue s = [].

(** [2 * n] retries in a row, none of the fetches having settled. *)
Definition burst (n : nat) : list (Z * Event) :=
  repeat (0, EvRetry) (2 * n).

(** * Properties *)

Example buildSearchQuery_Go :
  buildSearchQuery (lit "Go") (lit "x") = lit "x language:Go stars:>10".
Proof. reflexivity. Qed.

Example getCacheKey_hello :
  getCacheKey (lit "hello") = Some (lit "github_search_aGVsbG8=").
Proof. reflexivity. Qed.

Example trim_example : trim (lit "  a b  ") = lit "a b".
Proof. reflexivity. Qed.

(** ** Strings: basic facts *)

Lemma truthy_true (s : jsstring) : truthy s = true <-> s <> [].
Proof. destruct s; simpl; split; congruence. Qed.

Lemma truthy_false (s : jsstring) : truthy s = false <-> s = [].
Proof. destruct s; simpl; split; congruence. Qed.

(** ** Base64 is injective on byte strings *)

Section Base64.

Local Open Scope N_scope.

Lemma b64digit_not_pad (n : N) : b64digit n <> pad.
Proof.
  unfold b64digit, pad.
  repeat match goal with
         | |- context [?a <? ?b] => destruct (N.ltb_spec a b)
         | |- context [?a =? ?b] => destruct (N.eqb_spec a b)
         end; lia.
Qed.

Lemma b64digit_inj (n m : N) :
  n < 64 -> m < 64 -> b64digit n = b64digit m -> n = m.
Proof.
  unfold b64digit. intros Hn Hm.
  repeat match goal with
         | |- context [?a <? ?b] => destruct (N.ltb_spec a b)
         | |- context [?a =? ?b] => destruct (N.eqb_spec a b)
         end; lia.
Qed.

(** The four digits of a group determine its three bytes. *)
Lemma sextets_inj (a b c a' b' c' : N) :
  a <= 255 -> b <= 255 -> c <= 255 -> a' <= 255 -> b' <= 255 -> c' <= 255 ->
  a / 4 = a' / 4 ->
  a mod 4 * 16 + b / 16 = a' mod 4 * 16 + b' / 16 ->
  b mod 16 * 4 + c / 64 = b' mod 16 * 4 + c' / 64 ->
  c mod 64 = c' mod 64 ->
  a = a' /\ b = b' /\ c = c'.
Proof.
  intros.
  pose proof (N.div_mod a 4). pose proof (N.div_mod a' 4).
  pose proof (N.div_mod b 16). pose proof (N.div_mod b' 16).
  pose proof (N.div_mod c 64). pose proof (N.div_mod c' 64).
  pose proof (N.mod_upper_bound a 4). pose proof (N.mod_upper_bound a' 4).
  pose proof (N.mod_upper_bound b 16). pose proof (N.mod_upper_bound b' 16).
  pose proof (N.mod_upper_bound c 64). pose proof (N.mod_upper_bound c' 64).
  pose proof (N.Div0.div_lt_upper_bound b 16 16).
  pose proof (N.Div0.div_lt_upper_bound b' 16 16).
  pose proof (N.Div0.div_lt_upper_bound c 64 4).
  pose proof (N.Div0.div_lt_upper_bound c' 64 4).
  lia.
Qed.

Lemma list_ind3 {A : Type} (P : list A -> Prop) :
  P [] -> (forall a, P [a]) -> (forall a b, P [a; b]) ->
  (forall a b c r, P r -> P (a :: b :: c :: r)) ->
  forall l, P l.
Proof.
  intros H0 H1 H2 H3. fix IH 1.
  intros [|a [|b [|c r]]]; [exact H0 | apply H1 | apply H2 | apply H3, IH].
Qed.

Lemma latin1_cons (c : N) (s : jsstring) :
  latin1 (c :: s) = true <-> c <= 255 /\ latin1 s = true.
Proof.
  unfold latin1; simpl. rewrite andb_true_iff, N.leb_le. tauto.
Qed.

(* [lia] reads [N.modulo] as [Z.rem], of which it knows no sign: the
   facts below give it the quotient, the remainder and their bounds. *)
Ltac byte_facts x :=
  pose proof (N.div_mod x 4); pose proof (N.mod_upper_bound x 4);
  pose proof (N.le_0_l (x / 4)); pose proof (N.le_0_l (x mod 4));
  pose proof (N.div_mod x 16); pose proof (N.mod_upper_bound x 16);
  pose proof (N.le_0_l (x / 16)); pose proof (N.le_0_l (x mod 16));
  pose proof (N.div_mod x 64); pose proof (N.mod_upper_bound x 64);
  pose proof (N.le_0_l (x / 64)); pose proof (N.le_0_l (x mod 64)).

Ltac digits_eq :=
  repeat match goal with
         | H : b64digit _ = pad |- _ => destruct (b64digit_not_pad _ H)
         | H : pad = b64digit _ |- _ =>
             symmetry in H; destruct (b64digit_not_pad _ H)
         | H : b64digit _ = b64digit _ |- _ =>
             apply b64digit_inj in H; [ | lia | lia ]
         end.

Lemma base64_inj (l1 : list N) :
  forall l2, latin1 l1 = true -> latin1 l2 = true ->
             base64 l1 = base64 l2 -> l1 = l2.
Proof.
  induction l1 as [|a|a b|a b c r IH] using list_ind3;
    intros [|a' [|b' [|c' r']]] H1 H2 E;
    repeat match goal with
           | H : latin1 (_ :: _) = true |- _ =>
               apply latin1_cons in H; destruct H
           end;
    simpl in E; try discriminate; try reflexivity;
    injection E; clear E; intros;
    try byte_facts a; try byte_facts b; try byte_facts c;
    try byte_facts a'; try byte_facts b'; try byte_facts c';
    digits_eq.
  - f_equal; lia.
  - assert (a = a' /\ b = b') as [-> ->] by lia. reflexivity.
  - assert (a = a' /\ b = b' /\ c = c') as (-> & -> & ->) by lia.
    do 3 f_equal. now apply IH.
Qed.

Lemma btoa_inj (s1 s2 b : jsstring) :
  btoa s1 = Some b -> btoa s2 = Some b -> s1 = s2.
Proof.
  unfold btoa.
  destruct (latin1 s1) eqn:L1; [ | discriminate ].
  destruct (latin1 s2) eqn:L2; [ | discriminate ].
  intros [= <-] [= E]. symmetry. now apply base64_inj.
Qed.

End Base64.

(** ** The cache key *)

(** The key exists exactly for the queries whose code units all fit in
    a byte. *)
Lemma getCacheKey_defined (query : jsstring) :
  is_Some (getCacheKey query) <-> latin1 query = true.
Proof.
  unfold getCacheKey, btoa. destruct (latin1 query); split; intros H;
    try reflexivity; try discriminate; eauto.
  destruct H; discriminate.
Qed.

(** Where it exists, the key determines the query. *)
Lemma getCacheKey_inj (q1 q2 key : jsstring) :
  getCacheKey q1 = Some key -> getCacheKey q2 = Some key -> q1 = q2.
Proof.
  unfold getCacheKey.
  destruct (btoa q1) as [b1|] eqn:B1; [ | discriminate ].
  destruct (btoa q2) as [b2|] eqn:B2; [ | discriminate ].
  intros [= <-] [= E]. subst b2. eapply btoa_inj; eauto.
Qed.

(** ** The query builder *)

(** C8. The query builder is a function of the criteria alone.  With both
    fields present it gives "<term> language:<language> stars:>10", with
    only the language "language:<language> stars:>10", with only the term
    "<term> stars:>10"; and build(term "x", language "Go") is
    "x language:Go stars:>10". *)
Theorem buildSearchQuery_shape (language searchTerm : jsstring) :
  (searchTerm <> [] -> language <> [] ->
   buildSearchQuery language searchTerm
   = searchTerm ++ lit " language:" ++ language ++ lit " stars:>10") /\
  (searchTerm = [] -> language <> [] ->
   buildSearchQuery language searchTerm
   = lit "language:" ++ language ++ lit " stars:>10") /\
  (searchTerm <> [] -> language = [] ->
   buildSearchQuery language searchTerm = searchTerm ++ lit " stars:>10") /\
  buildSearchQuery (lit "Go") (lit "x") = lit "x language:Go stars:>10".
Proof.
  unfold buildSearchQuery. repeat split.
  - intros Ht Hl. apply truthy_true in Ht, Hl. rewrite Ht, Hl.
    cbn [andb]. now rewrite <- !app_assoc.
  - intros -> Hl. apply truthy_true in Hl. rewrite Hl.
    cbn [andb truthy]. now rewrite <- !app_assoc.
  - intros Ht ->. apply truthy_true in Ht. rewrite Ht. reflexivity.
Qed.

Lemma buildSearchQuery_shape_witness :
  lit "x" <> [] /\ lit "Rust" <> [] /\
  buildSearchQuery (lit "Rust") (lit "x") = lit "x language:Rust stars:>10".
Proof.
  split; [ discriminate | split; [ discriminate | ] ].
  apply (proj1 (buildSearchQuery_shape (lit "Rust") (lit "x")));
    discriminate.
Defined.

(** ** The cache key outside Latin-1 *)

(** C9. The key of a query with a code unit above 255 cannot be
    computed: [btoa] throws.  A search for the term "日本語" stops at
    [getCacheKey]: no fetch is issued, no status is shown and the cache
    is left as it was. *)
Theorem getCacheKey_throws_on_nihongo :
  getCacheKey (buildSearchQuery [] nihongo) = None /\
  forall (now : Z) (s : State),
    let s' := searchRepositories now [] nihongo s in
    issued s' = issued s /\ history s' = history s /\
    statusDiv s' = statusDiv s /\ cache s' = cache s.
Proof.
  split; [ reflexivity | ].
  intros now s. unfold searchRepositories.
  change (getCacheKey (buildSearchQuery [] nihongo)) with (@None jsstring).
  cbv zeta. unfold abortIfLoading.
  destruct (isLoading s); [ destruct (abortController s) | ];
    repeat split.
Qed.

(** ** Frame lemmas *)

Ltac case_state :=
  repeat match goal with
         | |- context [if ?b then _ else _] => destruct b eqn:?
         | |- context [match ?x with _ => _ end] => destruct x eqn:?
         end.

Lemma abortIfLoading_frame (s : State) :
  let s' := abortIfLoading s in
  cache s' = cache s /\ issued s' = issued s /\ history s' = history s /\
  statusDiv s' = statusDiv s /\ currentResults s' = currentResults s /\
  resultsDiv s' = resultsDiv s /\ isLoading s' = isLoading s /\
  abortController s' = abortController s /\
  List.map rid (inflight s') = List.map rid (inflight s).
Proof.
  unfold abortIfLoading, abort. case_state; simpl; repeat split; trivial.
  rewrite List.map_map. apply List.map_ext. intros r.
  now destruct (Nat.eqb (rid r) n).
Qed.

Lemma abortIfLoading_idle (s : State) :
  isLoading s = false -> abortIfLoading s = s.
Proof. unfold abortIfLoading. now intros ->. Qed.

Lemma settleAborted_clean (s : State) :
  existsb raborted (inflight (settleAborted s)) = false.
Proof.
  unfold settleAborted. destruct (existsb raborted (inflight s)) eqn:E; trivial.
  simpl. clear E. induction (inflight s) as [|r l IH]; simpl; trivial.
  destruct (raborted r) eqn:R; simpl; trivial. now rewrite R.
Qed.

Lemma settleAborted_id (s : State) :
  existsb raborted (inflight s) = false -> settleAborted s = s.
Proof. unfold settleAborted. now intros ->. Qed.

Lemma settleAborted_frame (s : State) :
  let s' := settleAborted s in
  cache s' = cache s /\ issued s' = issued s /\ history s' = history s /\
  statusDiv s' = statusDiv s /\ currentResults s' = currentResults s /\
  resultsDiv s' = resultsDiv s /\ languageValue s' = languageValue s /\
  searchTermValue s' = searchTermValue s.
Proof. unfold settleAborted. case_state; simpl; repeat split. Qed.

Lemma handleSearchSuccess_frame (d : SearchResultSet) (s : State) :
  let s' := handleSearchSuccess d s in
  cache s' = cache s /\ issued s' = issued s /\ inflight s' = inflight s /\
  isLoading s' = isLoading s /\ abortController s' = abortController s.
Proof. unfold handleSearchSuccess. destruct (items d); repeat split. Qed.

(** ** The retained result set *)

Lemma retained_handleSearchSuccess (d : SearchResultSet) (s : State) :
  retained s -> retained (handleSearchSuccess d s).
Proof.
  unfold retained, handleSearchSuccess. intros H.
  destruct (items d) eqn:E; simpl; trivial. now rewrite E.
Qed.

Lemma retained_searchRepositories now language searchTerm (s : State) :
  retained s -> retained (searchRepositories now language searchTerm s).
Proof.
  intros H. unfold searchRepositories.
  assert (H' : retained (abortIfLoading s)).
  { unfold retained. destruct (abortIfLoading_frame s) as (_ & _ & -> & _ & -> & _).
    exact H. }
  cbv zeta. case_state; trivial;
    try (apply retained_handleSearchSuccess; trivial);
    unfold retained in *; simpl; trivial.
Qed.

Lemma retained_settle now id resp (s : State) :
  retained s -> retained (settle now id resp s).
Proof.
  intros H. unfold settle. destruct (find_request id s) as [r|]; trivial.
  destruct (raborted r); trivial.
  destruct resp as [d| |]; cbv zeta.
  - assert (H' : retained (handleSearchSuccess d
       (set_cache (<[rkey r := mkEntry d now]> (cache (remove_request id s)))
          (remove_request id s))))
      by (apply retained_handleSearchSuccess; exact H).
    exact H'.
  - exact H.
  - exact H.
Qed.

Lemma retained_step now e (s : State) : retained s -> retained (step now e s).
Proof.
  intros H. unfold step.
  assert (H' : retained (handle now e s)).
  { destruct e; simpl.
    - unfold handleFormSubmit. case_state.
      + exact H.
      + now apply retained_searchRepositories.
    - unfold handleLanguageChange. case_state; simpl.
      + now apply retained_searchRepositories.
      + exact H.
      + exact H.
    - unfold handleSearchTermInput. case_state; simpl; exact H.
    - case_state; trivial. now apply retained_searchRepositories.
    - now apply retained_searchRepositories.
    - unfold showRandomRepository. case_state; trivial.
    - exact H.
    - case_state; trivial.
    - now apply retained_settle. }
  unfold retained.
  destruct (settleAborted_frame (handle now e s)) as (_ & _ & -> & _ & -> & _).
  exact H'.
Qed.

Lemma retained_run tr (s : State) : retained s -> retained (run tr s).
Proof.
  revert s. induction tr as [|[now e] tr IH]; intros s H; simpl; trivial.
  apply IH. now apply retained_step.
Qed.

Lemma last_nonempty_never (h : list Outcome) :
  never_succeeded h -> last_nonempty h = [].
Proof.
  unfold never_succeeded. induction h as [|o h IH]; intros H; simpl; trivial.
  assert (IH' : last_nonempty h = []) by (apply IH; intros d Hd; apply H; now right).
  destruct o; trivial.
  rewrite (H d); [ exact IH' | now left ].
Qed.

Lemma random_index_in_range (p q n : nat) :
  (p < q)%nat -> (0 < n)%nat -> (p * n / q < n)%nat.
Proof. intros Hpq Hn. apply Nat.Div0.div_lt_upper_bound. nia. Qed.

(** C10. In every reachable state the retained result set is the item
    list of the most recent non-empty success; an error or an empty
    response leaves it as it was.  The random pick renders exactly one
    item of that set, and does nothing when no non-empty success was
    ever received. *)
Theorem currentResults_retained (tr : list (Z * Event))
    (language searchTerm : jsstring) (p q : nat) :
  let s := run tr (init language searchTerm) in
  currentResults s = last_nonempty (history s) /\
  (forall now id resp,
      (forall d, resp = RespOk d -> items d = []) ->
      currentResults (step now (EvSettle id resp) s) = currentResults s) /\
  (never_succeeded (history s) -> showRandomRepository p q s = s) /\
  ((p < q)%nat -> currentResults s <> [] ->
   exists r, In r (last_nonempty (history s)) /\
             showRandomRepository p q s = displayResults [r] s /\
             resultsDiv (showRandomRepository p q s) = [r] /\
             currentResults (showRandomRepository p q s) = currentResults s).
Proof.
  intros s.
  assert (R : retained s) by (apply retained_run; reflexivity).
  split; [ exact R | split; [ | split ] ].
  - intros now id resp Hresp. unfold step.
    destruct (settleAborted_frame (handle now (EvSettle id resp) s))
      as (_ & _ & _ & _ & -> & _).
    simpl. unfold settle.
    destruct (find_request id s) as [r|]; trivial.
    destruct (raborted r); trivial.
    destruct resp as [d| |]; trivial.
    cbv zeta. unfold handleSearchSuccess.
    rewrite (Hresp d eq_refl). reflexivity.
  - intros Hn. unfold showRandomRepository.
    rewrite R, (last_nonempty_never _ Hn). reflexivity.
  - intros Hpq Hne. unfold showRandomRepository.
    destruct (currentResults s) as [|c l] eqn:E; [ congruence | ].
    destruct (nth_error (c :: l) (p * length (c :: l) / q)) as [r|] eqn:N.
    + exists r. rewrite <- R, E. repeat split; trivial.
      eapply nth_error_In; eauto.
    + apply nth_error_None in N.
      pose proof (random_index_in_range p q (length (c :: l)) Hpq).
      simpl in *. lia.
Qed.

Lemma currentResults_retained_witness :
  let s := run failed_after_success (init [] []) in
  statusDiv s = Some (Failure (HttpError 503 (lit "Service Unavailable"))) /\
  exists r, In r (items sample) /\ resultsDiv (showRandomRepository 1 2 s) = [r].
Proof.
  intros s. split; [ reflexivity | ].
  destruct (proj2 (proj2 (proj2
    (currentResults_retained failed_after_success [] [] 1 2))))
    as (r & Hin & _ & Hres & _).
  - lia.
  - vm_compute. discriminate.
  - exists r. split; [ exact Hin | exact Hres ].
Defined.

(** ** Empty responses *)

(** A fetch for "language:Go stars:>10" that succeeds with zero items:
    the no-results status is shown and the response is in the cache. *)
Lemma empty_response_cached_example :
  let s := run empty_answer (init [] []) in
  statusDiv s = Some NoResults /\
  cached (lit "language:Go stars:>10") s = Some (mkEntry nothing 100).
Proof. vm_compute. split; reflexivity. Qed.

(** C2 (amended). When the fetch of a pending request succeeds with zero
    items, the status becomes the no-results message, the retained
    result set is untouched, and the response is stored in the cache
    under the request's key with the current time. *)
Theorem empty_response_is_cached (now : Z) (id : nat) (r : Request)
    (d : SearchResultSet) (s : State) :
  find_request id s = Some r -> raborted r = false -> items d = [] ->
  let s' := settle now id (RespOk d) s in
  statusDiv s' = Some NoResults /\
  hd_error (history s') = Some NoResults /\
  currentResults s' = currentResults s /\
  cache s' !! rkey r = Some (mkEntry d now).
Proof.
  intros Hf Ha Hd. unfold settle. rewrite Hf, Ha. cbv zeta.
  unfold handleSearchSuccess. rewrite Hd. simpl.
  repeat split. apply lookup_insert_eq.
Qed.

Lemma empty_response_is_cached_witness :
  let s := run (firstn 1 empty_answer) (init [] []) in
  let s' := settle 100 0 (RespOk nothing) s in
  statusDiv s' = Some NoResults /\
  hd_error (history s') = Some NoResults /\
  currentResults s' = currentResults s /\
  cache s' !! lit "github_search_bGFuZ3VhZ2U6R28gc3RhcnM6PjEw"
  = Some (mkEntry nothing 100).
Proof.
  intros s.
  apply (empty_response_is_cached 100 0
           (mkRequest 0 (lit "language:Go stars:>10")
              (lit "github_search_bGFuZ3VhZ2U6R28gc3RhcnM6PjEw") false)
           nothing s); reflexivity.
Defined.

(** ** Text input *)

(** With results on display and no language selected, typing the
    two-character term "ab" arms no search and resets nothing: the
    success status and the rendered list stay. *)
Lemma short_term_keeps_display :
  let s := run results_shown (init [] []) in
  let s' := step 1000 (EvInput (lit "ab")) s in
  languageValue s' = [] /\ trim (searchTermValue s') = lit "ab" /\
  searchTimeout s' = None /\
  statusDiv s' = Some (Success sample) /\ resultsDiv s' = items sample /\
  refreshHidden s' = false.
Proof. vm_compute. repeat split. Qed.

(** C5 (amended). On text input a debounced search is armed exactly
    when the trimmed term has at least 3 characters or a language is
    selected.  Otherwise no search is armed; when the term is empty and
    no language is selected the start prompt is shown and the results
    are cleared, and when the term has one or two characters and no
    language is selected nothing else changes. *)
Theorem handleSearchTermInput_policy (now : Z) (s : State) :
  let language := languageValue s in
  let searchTerm := trim (searchTermValue s) in
  let s' := handleSearchTermInput now s in
  (searchTimeout s' = Some (now + DEBOUNCE_DELAY, language, searchTerm)
   <-> (3 <= length searchTerm)%nat \/ language <> []) /\
  (searchTimeout s' = None
   <-> (length searchTerm < 3)%nat /\ language = []) /\
  (searchTerm = [] -> language = [] ->
   s' = clearResults (showStatus PromptStart (set_searchTimeout None s))) /\
  (searchTerm <> [] -> (length searchTerm < 3)%nat -> language = [] ->
   s' = set_searchTimeout None s).
Proof.
  intros language searchTerm s'. subst s'. unfold handleSearchTermInput.
  cbv zeta. simpl languageValue. simpl searchTermValue.
  fold language. fold searchTerm.
  destruct (Nat.leb_spec 3 (length searchTerm)) as [Hlen|Hlen];
    destruct language as [|c l] eqn:El; simpl;
    try (destruct searchTerm as [|c' l'] eqn:Et; simpl);
    repeat split; try intros; try tauto; try congruence; try discriminate;
    try (simpl in *; lia); auto.
  all: try (right; discriminate).
  all: try (match goal with H : _ /\ _ |- _ => destruct H end;
            simpl in *; try lia; try discriminate).
  all: match goal with H : _ \/ _ |- _ => destruct H end;
    simpl in *; try lia; congruence.
Qed.

Lemma handleSearchTermInput_policy_witness :
  let s := set_searchTermValue (lit "ab") (run results_shown (init [] [])) in
  handleSearchTermInput 1000 s = set_searchTimeout None s.
Proof.
  intros s.
  apply (proj2 (proj2 (proj2 (handleSearchTermInput_policy 1000 s)))).
  - discriminate.
  - vm_compute. lia.
  - reflexivity.
Defined.

(** ** Empty criteria *)

(** Two triggers with both fields empty that do not end in the idle
    display.  A response that arrives after the form was emptied puts
    results on screen, and a form submit then shows its prompt above
    them; after a failed response the retry entry point fetches the
    query " stars:>10". *)
Lemma empty_criteria_not_idle :
  let s := run (answered_after_reset (RespOk sample)) (init [] []) in
  let a := step 1100 EvSubmit s in
  let f := run (answered_after_reset
                  (RespNotOk 503 (lit "Service Unavailable"))) (init [] []) in
  let b := step 1100 EvRetry f in
  (languageValue s = [] /\ trim (searchTermValue s) = [] /\
   statusDiv a = Some PromptSubmit /\ resultsDiv a = items sample) /\
  (languageValue f = [] /\ trim (searchTermValue f) = [] /\
   issued b = S (issued f) /\
   List.map rquery (live b) = [lit " stars:>10"]).
Proof. vm_compute. repeat split. Qed.

(** C7 (amended). With no language selected and an empty trimmed term,
    a form submit, a language change and a text input each show a
    prompt and issue no fetch; the language change and the text input
    also clear the rendered results and hide the refresh button. *)
Theorem empty_criteria_prompt (now : Z) (s : State) :
  languageValue s = [] -> trim (searchTermValue s) = [] ->
  let a := handleFormSubmit now s in
  let b := handleLanguageChange now s in
  let c := handleSearchTermInput now s in
  (statusDiv a = Some PromptSubmit /\
   issued a = issued s /\ inflight a = inflight s) /\
  (statusDiv b = Some PromptStart /\
   issued b = issued s /\ inflight b = inflight s /\
   resultsDiv b = [] /\ refreshHidden b = true) /\
  (statusDiv c = Some PromptStart /\
   issued c = issued s /\ inflight c = inflight s /\
   resultsDiv c = [] /\ refreshHidden c = true /\ searchTimeout c = None).
Proof.
  intros Hl Ht.
  unfold handleFormSubmit, handleLanguageChange, handleSearchTermInput.
  cbv zeta. simpl languageValue. simpl searchTermValue.
  rewrite Hl, Ht. simpl. repeat split.
Qed.

Lemma empty_criteria_prompt_witness :
  let s := run (answered_after_reset (RespOk sample)) (init [] []) in
  statusDiv (handleLanguageChange 1100 s) = Some PromptStart /\
  resultsDiv (handleLanguageChange 1100 s) = [] /\
  issued (handleFormSubmit 1100 s) = issued s.
Proof.
  intros s.
  destruct (empty_criteria_prompt 1100 s) as ((_ & Ha & _) & (Hb & _ & _ & Hr & _) & _).
  - reflexivity.
  - reflexivity.
  - split; [ exact Hb | split; [ exact Hr | exact Ha ] ].
Defined.

(** ** Retry *)

(** The search for "abc" failed; after the term was edited to "ab" the
    retry fetches "ab stars:>10", not the query that failed. *)
Lemma retry_after_edit_changes_query :
  let pending := run (firstn 2 failed_then_edited) (init [] []) in
  let s := run failed_then_edited (init [] []) in
  let s' := step 1100 EvRetry s in
  List.map rquery (live pending) = [lit "abc stars:>10"] /\
  statusDiv s = Some (Failure (HttpError 503 (lit "Service Unavailable"))) /\
  List.map rquery (live s') = [lit "ab stars:>10"].
Proof. vm_compute. repeat split. Qed.

(** C6 (amended). [retrySearch] resolves the criteria the form fields
    hold when it is called.  When a pending request that was issued for
    the criteria still in the form fails, and the cache has no fresh
    entry for its query, the retry issues a new fetch for the identical
    query. *)
Theorem retry_reissues_failed_query (now1 now2 : Z) (id : nat) (r : Request)
    (resp : Response) (s : State) :
  find_request id s = Some r -> raborted r = false ->
  rquery r = buildSearchQuery (languageValue s) (trim (searchTermValue s)) ->
  getCacheKey (rquery r) = Some (rkey r) ->
  (forall d, resp <> RespOk d) ->
  (forall e, cache s !! rkey r = Some e -> CACHE_DURATION <= now2 - timestamp e) ->
  let s1 := settle now1 id resp s in
  let s2 := retrySearch now2 s1 in
  (exists m, statusDiv s1 = Some (Failure m)) /\
  s2 = searchRepositories now2 (languageValue s1) (trim (searchTermValue s1)) s1 /\
  issued s2 = S (issued s1) /\
  last (inflight s2) = Some (mkRequest (issued s1) (rquery r) (rkey r) false).
Proof.
  intros Hf Ha Hq Hk Hr Hc s1 s2.
  assert (E : exists m, s1 = finally (showStatus (Failure m) (remove_request id s))).
  { subst s1. unfold settle. rewrite Hf, Ha.
    destruct resp as [d| |]; [ destruct (Hr d eq_refl) | | ]; eauto. }
  destruct E as [m E].
  split; [ exists m; now rewrite E | ].
  split; [ reflexivity | ].
  subst s2. unfold retrySearch, searchRepositories.
  rewrite abortIfLoading_idle by now rewrite E.
  cbv zeta.
  replace (buildSearchQuery (languageValue s1) (trim (searchTermValue s1)))
    with (rquery r) by now rewrite E.
  rewrite Hk.
  replace (cache s1) with (cache s) by now rewrite E.
  destruct (cache s !! rkey r) as [e|] eqn:L.
  - specialize (Hc e eq_refl).
    destruct (Z.ltb_spec (now2 - timestamp e) CACHE_DURATION); [ lia | ].
    unfold startFetch; simpl. split; [ reflexivity | apply last_snoc ].
  - unfold startFetch; simpl. split; [ reflexivity | apply last_snoc ].
Qed.

Lemma retry_reissues_failed_query_witness :
  let s := run (firstn 2 failed_then_edited) (init [] []) in
  let s1 := settle 900 0 (RespNotOk 503 (lit "Service Unavailable")) s in
  last (inflight (retrySearch 1100 s1))
  = Some (mkRequest 1 (lit "abc stars:>10")
            (lit "github_search_YWJjIHN0YXJzOj4xMA==") false).
Proof.
  intros s s1.
  refine (proj2 (proj2 (proj2
    (retry_reissues_failed_query 900 1100 0
       (mkRequest 0 (lit "abc stars:>10")
          (lit "github_search_YWJjIHN0YXJzOj4xMA==") false)
       (RespNotOk 503 (lit "Service Unavailable")) s _ _ _ _ _ _)))).
  - reflexivity.
  - reflexivity.
  - reflexivity.
  - reflexivity.
  - discriminate.
  - intros e He. vm_compute in He. discriminate.
Defined.

(** ** Pending requests: two invariants of the event loop *)

Lemma filter_live_clean (l : list Request) :
  existsb raborted l = false -> List.filter (fun r => negb (raborted r)) l = l.
Proof.
  induction l as [|r l IH]; simpl; trivial.
  destruct (raborted r); simpl; [ discriminate | ].
  intros H. now rewrite IH.
Qed.

Lemma existsb_filter_false (f : Request -> bool) (l : list Request) :
  existsb raborted l = false -> existsb raborted (List.filter f l) = false.
Proof.
  induction l as [|r l IH]; simpl; trivial.
  intros H. apply orb_false_elim in H as [Hr Hl].
  destruct (f r); simpl; [ rewrite Hr | ]; auto.
Qed.

Lemma inflight_settleAborted (s : State) :
  inflight (settleAborted s)
  = List.filter (fun r => negb (raborted r)) (inflight s).
Proof.
  unfold settleAborted. destruct (existsb raborted (inflight s)) eqn:E; trivial.
  now rewrite filter_live_clean.
Qed.

Lemma ids_bounded_init (language searchTerm : jsstring) :
  ids_bounded (init language searchTerm).
Proof. constructor. Qed.

Lemma ids_bounded_map (s s' : State) :
  List.map rid (inflight s') = List.map rid (inflight s) ->
  issued s' = issued s -> ids_bounded s -> ids_bounded s'.
Proof.
  unfold ids_bounded. intros Hm Hi H.
  rewrite Forall_forall in *. intros r Hr.
  assert (Hin : In (rid r) (List.map rid (inflight s')))
    by (apply in_map_iff; exists r; split; [ reflexivity | now apply list_elem_of_In ]).
  rewrite Hm in Hin. apply in_map_iff in Hin as (r0 & E & Hr0).
  rewrite Hi, <- E. apply H. now apply list_elem_of_In.
Qed.

Lemma ids_bounded_filter (f : Request -> bool) (s s' : State) :
  inflight s' = List.filter f (inflight s) ->
  issued s' = issued s -> ids_bounded s -> ids_bounded s'.
Proof.
  unfold ids_bounded. intros Hm Hi H. rewrite Hm, Hi.
  rewrite Forall_forall in *. intros r Hr.
  apply H. apply list_elem_of_In. apply list_elem_of_In in Hr.
  now apply filter_In in Hr as [Hr _].
Qed.

Lemma ids_bounded_startFetch (query cacheKey : jsstring) (s : State) :
  ids_bounded s -> ids_bounded (startFetch query cacheKey s).
Proof.
  unfold ids_bounded, startFetch. simpl. intros H.
  apply Forall_app. split.
  - eapply Forall_impl; [ exact H | ]. simpl. intros r Hr. lia.
  - repeat constructor.
Qed.

Lemma ids_bounded_handleSearchSuccess (d : SearchResultSet) (s : State) :
  ids_bounded s -> ids_bounded (handleSearchSuccess d s).
Proof. unfold handleSearchSuccess. now destruct (items d). Qed.

Lemma ids_bounded_searchRepositories now language searchTerm (s : State) :
  ids_bounded s -> ids_bounded (searchRepositories now language searchTerm s).
Proof.
  intros H.
  assert (H0 : ids_bounded (abortIfLoading s)).
  { destruct (abortIfLoading_frame s) as (_ & Hi & _ & _ & _ & _ & _ & _ & Hm).
    eapply ids_bounded_map; eauto. }
  unfold searchRepositories. cbv zeta. case_state; trivial;
    auto using ids_bounded_startFetch, ids_bounded_handleSearchSuccess.
Qed.

Lemma ids_bounded_settle now id resp (s : State) :
  ids_bounded s -> ids_bounded (settle now id resp s).
Proof.
  intros H. unfold settle.
  destruct (find_request id s) as [r|]; trivial.
  destruct (raborted r); trivial.
  assert (H0 : ids_bounded (remove_request id s))
    by (eapply ids_bounded_filter; eauto; reflexivity).
  destruct resp as [d| |]; cbv zeta; try exact H0.
  apply (ids_bounded_handleSearchSuccess d
           (set_cache (<[rkey r := mkEntry d now]> (cache (remove_request id s)))
              (remove_request id s))).
  exact H0.
Qed.

Lemma ids_bounded_step now e (s : State) :
  ids_bounded s -> ids_bounded (step now e s).
Proof.
  intros H. unfold step.
  assert (H' : ids_bounded (handle now e s)).
  { destruct e; simpl.
    - unfold handleFormSubmit. case_state; trivial.
      now apply ids_bounded_searchRepositories.
    - unfold handleLanguageChange. case_state; trivial.
      now apply ids_bounded_searchRepositories.
    - unfold handleSearchTermInput. case_state; trivial.
    - case_state; trivial. now apply ids_bounded_searchRepositories.
    - now apply ids_bounded_searchRepositories.
    - unfold showRandomRepository. case_state; trivial.
    - exact H.
    - case_state; trivial.
    - now apply ids_bounded_settle. }
  eapply ids_bounded_filter; [ apply inflight_settleAborted | | exact H' ].
  now destruct (settleAborted_frame (handle now e s)) as (_ & -> & _).
Qed.

Lemma ids_bounded_run tr (s : State) : ids_bounded s -> ids_bounded (run tr s).
Proof.
  revert s. induction tr as [|[now e] tr IH]; intros s H; simpl; trivial.
  apply IH. now apply ids_bounded_step.
Qed.

Lemma find_request_fresh (l : list Request) (r : Request) :
  Forall (fun r' => (rid r' < rid r)%nat) l ->
  List.find (fun r' => Nat.eqb (rid r') (rid r)) (l ++ [r]) = Some r.
Proof.
  induction 1 as [|r' l Hr' Hl IH]; simpl.
  - now rewrite Nat.eqb_refl.
  - destruct (Nat.eqb_spec (rid r') (rid r)); [ lia | exact IH ].
Qed.

(** ** The cache *)

(** A resolution that raises the number of fetches took the network
    branch. *)
Lemma searchRepositories_fetch now language searchTerm (s : State) :
  issued (searchRepositories now language searchTerm s) = S (issued s) ->
  exists cacheKey,
    getCacheKey (buildSearchQuery language searchTerm) = Some cacheKey /\
    searchRepositories now language searchTerm s
    = startFetch (buildSearchQuery language searchTerm) cacheKey
        (abortIfLoading s).
Proof.
  unfold searchRepositories. cbv zeta.
  destruct (abortIfLoading_frame s) as (_ & Hi & _).
  destruct (getCacheKey (buildSearchQuery language searchTerm)) as [k|];
    [ | rewrite Hi; lia ].
  destruct (cache (abortIfLoading s) !! k) as [e|]; [ | eauto ].
  destruct (now - timestamp e <? CACHE_DURATION); [ | eauto ].
  destruct (handleSearchSuccess_frame (data e) (abortIfLoading s))
    as (_ & -> & _).
  rewrite Hi; lia.
Qed.

Lemma resolve_clean now language searchTerm (s : State) :
  clean (resolve now language searchTerm s).
Proof. apply settleAborted_clean. Qed.

(** The state in which a successful response leaves the object. *)
Lemma settle_ok (now : Z) (id : nat) (r : Request) (d : SearchResultSet)
    (s : State) :
  find_request id s = Some r -> raborted r = false ->
  settle now id (RespOk d) s
  = finally (handleSearchSuccess d
      (set_cache (<[rkey r := mkEntry d now]> (cache s)) (remove_request id s))).
Proof. intros Hf Ha. unfold settle. now rewrite Hf, Ha. Qed.

(** Showing the same response twice changes nothing the second time,
    apart from the entry added to the history. *)
Lemma handleSearchSuccess_again (d : SearchResultSet) (s : State) :
  let s1 := finally (handleSearchSuccess d s) in
  let s2 := handleSearchSuccess d s1 in
  statusDiv s2 = statusDiv s1 /\ resultsDiv s2 = resultsDiv s1 /\
  currentResults s2 = currentResults s1 /\
  refreshHidden s2 = refreshHidden s1 /\
  statusDiv s1 = Some (match items d with [] => NoResults | _ :: _ => Success d end).
Proof. unfold handleSearchSuccess. destruct (items d); repeat split. Qed.

(** C4. In a reachable state, let a resolution go to the network and its
    fetch succeed at time [now1].  A second resolution of the same
    criteria less than 5 minutes after [now1] issues no fetch and shows
    the very same response again; one made 5 minutes or more after
    [now1] issues a new fetch for the same query. *)
Theorem same_criteria_within_ttl (tr : list (Z * Event)) (l0 t0 : jsstring)
    (now0 now1 now2 : Z) (language searchTerm : jsstring)
    (d : SearchResultSet) :
  let s := run tr (init l0 t0) in
  let query := buildSearchQuery language searchTerm in
  let s1 := resolve now0 language searchTerm s in
  let s2 := step now1 (EvSettle (issued s) (RespOk d)) s1 in
  let s3 := resolve now2 language searchTerm s2 in
  issued s1 = S (issued s) ->
  cached query s2 = Some (mkEntry d now1) /\
  (now2 - now1 < CACHE_DURATION ->
   issued s3 = S (issued s) /\
   s3 = handleSearchSuccess d s2 /\
   statusDiv s3 = statusDiv s2 /\ resultsDiv s3 = resultsDiv s2 /\
   currentResults s3 = currentResults s2) /\
  (CACHE_DURATION <= now2 - now1 ->
   issued s3 = S (S (issued s)) /\
   exists cacheKey,
     getCacheKey query = Some cacheKey /\
     last (inflight s3) = Some (mkRequest (S (issued s)) query cacheKey false)).
Proof.
  intros s query s1 s2 s3 Hnet.
  assert (Hb : ids_bounded s) by apply ids_bounded_run, ids_bounded_init.
  (* the first resolution *)
  assert (Hi1 : issued s1 = issued (searchRepositories now0 language searchTerm s))
    by (unfold s1, resolve;
        now destruct (settleAborted_frame
                        (searchRepositories now0 language searchTerm s))
          as (_ & -> & _)).
  rewrite Hi1 in Hnet.
  destruct (searchRepositories_fetch _ _ _ _ Hnet) as (k & Hk & Hs).
  fold query in Hk, Hs.
  set (new := mkRequest (issued s) query k false).
  assert (Hin1 : inflight s1
                 = List.filter (fun r => negb (raborted r))
                     (inflight (abortIfLoading s)) ++ [new]).
  { unfold s1, resolve. rewrite inflight_settleAborted, Hs.
    unfold startFetch. simpl. rewrite List.filter_app. simpl.
    destruct (abortIfLoading_frame s) as (_ & -> & _). reflexivity. }
  assert (Hf : find_request (issued s) s1 = Some new).
  { unfold find_request. rewrite Hin1.
    apply (find_request_fresh _ new).
    apply Forall_forall. intros r Hr. apply list_elem_of_In, filter_In in Hr as [Hr _].
    assert (H0 : ids_bounded (abortIfLoading s)).
    { destruct (abortIfLoading_frame s) as (_ & Hi & _ & _ & _ & _ & _ & _ & Hm).
      eapply ids_bounded_map; eauto. }
    unfold ids_bounded in H0. rewrite Forall_forall in H0.
    destruct (abortIfLoading_frame s) as (_ & Hi & _).
    change (rid new) with (issued s). rewrite <- Hi.
    apply H0. now apply list_elem_of_In. }
  assert (Hc1 : clean s1) by apply resolve_clean.
  (* the response *)
  assert (Hs2 : s2 = finally (handleSearchSuccess d
             (set_cache (<[k := mkEntry d now1]> (cache s1))
                (remove_request (issued s) s1)))).
  { unfold s2, step. simpl handle.
    rewrite (settle_ok now1 (issued s) new d s1 Hf eq_refl).
    apply settleAborted_id.
    unfold finally. simpl.
    destruct (handleSearchSuccess_frame d
                (set_cache (<[k := mkEntry d now1]> (cache s1))
                   (remove_request (issued s) s1))) as (_ & _ & -> & _).
    simpl. now apply existsb_filter_false. }
  assert (Hcache2 : cache s2 !! k = Some (mkEntry d now1)).
  { rewrite Hs2. unfold finally. simpl.
    destruct (handleSearchSuccess_frame d
                (set_cache (<[k := mkEntry d now1]> (cache s1))
                   (remove_request (issued s) s1))) as (-> & _).
    simpl. apply lookup_insert_eq. }
  assert (Hload2 : isLoading s2 = false) by now rewrite Hs2.
  assert (Hc2 : clean s2) by (unfold s2; apply settleAborted_clean).
  assert (Hi2 : issued s2 = S (issued s)).
  { rewrite Hs2. unfold finally. simpl.
    destruct (handleSearchSuccess_frame d
                (set_cache (<[k := mkEntry d now1]> (cache s1))
                   (remove_request (issued s) s1))) as (_ & -> & _).
    simpl. rewrite Hi1. exact Hnet. }
  split; [ unfold cached; now rewrite Hk | ].
  (* the second resolution *)
  assert (Hs3 : searchRepositories now2 language searchTerm s2
                = if now2 - now1 <? CACHE_DURATION
                  then handleSearchSuccess d s2
                  else startFetch query k s2).
  { unfold searchRepositories. cbv zeta.
    rewrite (abortIfLoading_idle s2 Hload2). fold query.
    rewrite Hk, Hcache2. reflexivity. }
  split.
  - intros Hfresh.
    assert (E : s3 = handleSearchSuccess d s2).
    { unfold s3, resolve. rewrite Hs3.
      destruct (Z.ltb_spec (now2 - now1) CACHE_DURATION); [ | lia ].
      apply settleAborted_id.
      destruct (handleSearchSuccess_frame d s2) as (_ & _ & -> & _).
      exact Hc2. }
    split; [ | split; [ exact E | ] ].
    + rewrite E.
      destruct (handleSearchSuccess_frame d s2) as (_ & -> & _). exact Hi2.
    + rewrite E, Hs2.
      destruct (handleSearchSuccess_again d
                  (set_cache (<[k := mkEntry d now1]> (cache s1))
                     (remove_request (issued s) s1)))
        as (Ha & Hb' & Hc' & _).
      repeat split; assumption.
  - intros Hstale.
    assert (E : s3 = startFetch query k s2).
    { unfold s3, resolve. rewrite Hs3.
      destruct (Z.ltb_spec (now2 - now1) CACHE_DURATION); [ lia | ].
      apply settleAborted_id. unfold startFetch. simpl.
      rewrite existsb_app. unfold clean in Hc2. rewrite Hc2. reflexivity. }
    split.
    + rewrite E. unfold startFetch. simpl. now rewrite Hi2.
    + exists k. split; [ exact Hk | ].
      rewrite E. unfold startFetch. simpl. rewrite Hi2. apply last_snoc.
Qed.

Lemma same_criteria_within_ttl_witness :
  let s1 := resolve 0 (lit "Rust") [] (init [] []) in
  let s2 := step 100 (EvSettle 0 (RespOk sample)) s1 in
  let s3 := resolve 1000 (lit "Rust") [] s2 in
  let s4 := resolve 300100 (lit "Rust") [] s2 in
  (issued s3 = 1%nat /\ statusDiv s3 = statusDiv s2) /\ issued s4 = 2%nat.
Proof.
  intros s1 s2 s3 s4. split.
  - destruct (same_criteria_within_ttl [] [] [] 0 100 1000 (lit "Rust") []
                sample) as (_ & Hfresh & _); [ reflexivity | ].
    destruct Hfresh as (Hi & _ & Hst & _); [ reflexivity | ].
    split; [ exact Hi | exact Hst ].
  - destruct (same_criteria_within_ttl [] [] [] 0 100 300100 (lit "Rust") []
                sample) as (_ & _ & Hstale); [ reflexivity | ].
    destruct Hstale as (Hi & _); [ vm_compute; discriminate | ].
    exact Hi.
Defined.

(** ** Supersession *)

(** What the abort does achieve: the request that [abortController]
    tracks is gone once the task of the new resolution has finished. *)
Lemma searchRepositories_inflight now language searchTerm (s : State) :
  let s' := searchRepositories now language searchTerm s in
  inflight s' = inflight (abortIfLoading s) \/
  exists cacheKey,
    inflight s' = inflight (abortIfLoading s)
                  ++ [mkRequest (issued s) (buildSearchQuery language searchTerm)
                        cacheKey false].
Proof.
  unfold searchRepositories. cbv zeta.
  destruct (abortIfLoading_frame s) as (_ & Hi & _).
  assert (F : forall k,
             inflight (startFetch (buildSearchQuery language searchTerm) k
                         (abortIfLoading s))
             = inflight (abortIfLoading s)
               ++ [mkRequest (issued s) (buildSearchQuery language searchTerm)
                     k false])
    by (intros k; unfold startFetch; simpl; now rewrite Hi).
  destruct (getCacheKey (buildSearchQuery language searchTerm)) as [k|];
    [ | now left ].
  destruct (cache (abortIfLoading s) !! k) as [e|]; [ | right; eauto ].
  destruct (now - timestamp e <? CACHE_DURATION); [ | right; eauto ].
  left. now destruct (handleSearchSuccess_frame (data e) (abortIfLoading s))
    as (_ & _ & -> & _).
Qed.

Lemma resolve_aborts_tracked now language searchTerm (c : nat) (s : State) :
  isLoading s = true -> abortController s = Some c -> (c < issued s)%nat ->
  Forall (fun r => rid r <> c) (inflight (resolve now language searchTerm s)).
Proof.
  intros Hl Hc Hlt. unfold resolve. rewrite inflight_settleAborted.
  assert (A : Forall (fun r => raborted r = false -> rid r <> c)
                (inflight (abortIfLoading s))).
  { unfold abortIfLoading. rewrite Hl, Hc. unfold abort. simpl.
    apply Forall_forall. intros r Hr.
    apply list_elem_of_In, in_map_iff in Hr as (r0 & <- & _).
    destruct (Nat.eqb_spec (rid r0) c); simpl; congruence. }
  apply Forall_forall. intros r Hr.
  apply list_elem_of_In, filter_In in Hr as [Hr Hlive].
  apply negb_true_iff in Hlive.
  rewrite Forall_forall in A.
  destruct (searchRepositories_inflight now language searchTerm s)
    as [E | (k & E)]; rewrite E in Hr.
  - apply A; [ now apply list_elem_of_In | exact Hlive ].
  - apply in_app_or in Hr as [Hr | [<- | []]].
    + apply A; [ now apply list_elem_of_In | exact Hlive ].
    + simpl. lia.
Qed.

(** C3. After three triggers in a row two fetches are on the network.
    The second trigger aborts the first fetch, whose [finally] block
    then clears [isLoading] and [abortController] although the second
    fetch is pending; the third trigger therefore aborts nothing. *)
Theorem two_fetches_live :
  let s2 := run (firstn 2 three_triggers) (init [] []) in
  let s3 := run three_triggers (init [] []) in
  (List.map rid (live s2) = [1%nat] /\ isLoading s2 = false /\
   abortController s2 = None) /\
  List.map rid (live s3) = [1%nat; 2%nat] /\
  List.map rquery (live s3)
  = [lit "language:Rust stars:>10"; lit "language:Dart stars:>10"].
Proof. vm_compute. repeat split. Qed.

(** C1. The fetch for "Rust" was superseded by the trigger for "Dart",
    yet its answer, arriving last, is applied: it replaces the status,
    the rendered list and the retained result set of "Dart" and is
    written to the cache. *)
Theorem late_response_overwrites :
  let s1 := run (three_triggers ++ [(30, EvSettle 2 (RespOk other))])
              (init [] []) in
  let s2 := step 40 (EvSettle 1 (RespOk sample)) s1 in
  languageValue s2 = lit "Dart" /\
  (statusDiv s1 = Some (Success other) /\ currentResults s1 = items other /\
   cached (lit "language:Rust stars:>10") s1 = None) /\
  statusDiv s2 = Some (Success sample) /\
  resultsDiv s2 = items sample /\
  currentResults s2 = items sample /\
  cached (lit "language:Rust stars:>10") s2 = Some (mkEntry sample 40).
Proof. vm_compute. repeat split. Qed.


(** * Further properties *)

(** ** Trimming *)

Lemma trimStart_split (s : jsstring) :
  exists pre, s = pre ++ trimStart s /\ forallb is_space pre = true.
Proof.
  induction s as [|c s (pre & E & Hpre)]; [ now exists [] | ].
  simpl. destruct (is_space c) eqn:Hc.
  - exists (c :: pre). simpl. rewrite Hc, Hpre. now rewrite <- E.
  - now exists [].
Qed.

Lemma trimStart_head (s : jsstring) (c : N) (r : jsstring) :
  trimStart s = c :: r -> is_space c = false.
Proof.
  induction s as [|c' s IH]; simpl; [ discriminate | ].
  destruct (is_space c') eqn:Hc; [ exact IH | ].
  now intros [= <- _].
Qed.

Lemma trimStart_fixed (s : jsstring) :
  (forall c r, s = c :: r -> is_space c = false) -> trimStart s = s.
Proof.
  destruct s as [|c r]; trivial. intros H. simpl.
  now rewrite (H c r eq_refl).
Qed.

Lemma trimStart_spaces (s : jsstring) :
  forallb is_space s = true -> trimStart s = [].
Proof.
  induction s as [|c s IH]; simpl; trivial.
  intros H. apply andb_true_iff in H as [-> H]. auto.
Qed.

Lemma trimStart_nil_spaces (s : jsstring) :
  trimStart s = [] -> forallb is_space s = true.
Proof.
  induction s as [|c s IH]; simpl; trivial.
  destruct (is_space c); [ exact IH | discriminate ].
Qed.

Lemma trim_split (s : jsstring) :
  exists pre post,
    s = pre ++ trim s ++ post /\
    forallb is_space pre = true /\ forallb is_space post = true.
Proof.
  destruct (trimStart_split s) as (pre & E & Hpre).
  destruct (trimStart_split (rev (trimStart s))) as (post & E' & Hpost).
  exists pre, (rev post). repeat split; trivial.
  - unfold trim. rewrite <- rev_app_distr, <- E', rev_involutive. exact E.
  - rewrite forallb_forall in *. intros c Hc. apply Hpost.
    now apply in_rev.
Qed.

Lemma trim_last (s : jsstring) (c : N) :
  last (trim s) = Some c -> is_space c = false.
Proof.
  unfold trim. destruct (trimStart (rev (trimStart s))) as [|c' r] eqn:E.
  - discriminate.
  - simpl. rewrite last_snoc. intros [= <-]. eapply trimStart_head; eauto.
Qed.

Lemma trim_head (s : jsstring) (c : N) (r : jsstring) :
  trim s = c :: r -> is_space c = false.
Proof.
  intros H.
  destruct (trimStart_split (rev (trimStart s))) as (post & E & _).
  assert (T : trimStart s = trim s ++ rev post).
  { unfold trim. rewrite <- rev_app_distr, <- E. now rewrite rev_involutive. }
  rewrite H in T. simpl in T. eapply trimStart_head; eauto.
Qed.

Lemma trim_fixed (s : jsstring) :
  (forall c r, s = c :: r -> is_space c = false) ->
  (forall c, last s = Some c -> is_space c = false) ->
  trim s = s.
Proof.
  intros Hh Hl. unfold trim. rewrite (trimStart_fixed s Hh).
  rewrite trimStart_fixed; [ apply rev_involutive | ].
  intros c r E. apply Hl.
  rewrite <- (rev_involutive s), E. simpl. apply last_snoc.
Qed.

Lemma trim_spaces (s : jsstring) :
  trim s = [] <-> forallb is_space s = true.
Proof.
  split.
  - intros H. destruct (trim_split s) as (pre & post & E & Hpre & Hpost).
    rewrite H in E. rewrite E. simpl.
    rewrite forallb_app, Hpre, Hpost. reflexivity.
  - intros H. unfold trim. now rewrite (trimStart_spaces s H).
Qed.

(** X1. [trim] removes white space at both ends and nothing else: the
    input is the result between two runs of white space, the result
    neither starts nor ends with white space, and trimming twice is
    trimming once. *)
Theorem trim_spec (s : jsstring) :
  (exists pre post,
      s = pre ++ trim s ++ post /\
      forallb is_space pre = true /\ forallb is_space post = true) /\
  (forall c r, trim s = c :: r -> is_space c = false) /\
  (forall c, last (trim s) = Some c -> is_space c = false) /\
  trim (trim s) = trim s.
Proof.
  split; [ apply trim_split | ].
  split; [ apply trim_head | ].
  split; [ apply trim_last | ].
  apply trim_fixed; [ apply trim_head | apply trim_last ].
Qed.

Lemma trim_spec_witness :
  is_space 97 = false /\ trim (trim (lit " ab ")) = trim (lit " ab ").
Proof.
  split.
  - apply (proj1 (proj2 (trim_spec (lit " ab "))) 97%N [98%N]). reflexivity.
  - apply (proj2 (proj2 (proj2 (trim_spec (lit " ab "))))).
Defined.

(** X2. A term made of white space only counts as no term.  With no
    language selected a form submit then shows its prompt and a text
    input resets the display, and neither issues a fetch or arms the
    timer; with any other term the form submit resolves the trimmed
    term. *)
Theorem blank_term_is_empty (now : Z) (s : State) :
  languageValue s = [] ->
  (forallb is_space (searchTermValue s) = true ->
   handleFormSubmit now s = showStatus PromptSubmit s /\
   handleSearchTermInput now s
   = clearResults (showStatus PromptStart (set_searchTimeout None s))) /\
  (forallb is_space (searchTermValue s) = false ->
   handleFormSubmit now s
   = searchRepositories now [] (trim (searchTermValue s)) s).
Proof.
  intros Hl. unfold handleFormSubmit, handleSearchTermInput. cbv zeta.
  simpl languageValue. simpl searchTermValue. rewrite Hl. split.
  - intros H. apply trim_spaces in H. rewrite H. split; reflexivity.
  - intros H. destruct (trim (searchTermValue s)) as [|c r] eqn:E.
    + apply trim_spaces in E. congruence.
    + reflexivity.
Qed.

Lemma blank_term_is_empty_witness :
  let s := set_searchTermValue (lit "   ") (init [] []) in
  handleFormSubmit 0 s = showStatus PromptSubmit s.
Proof.
  intros s.
  apply (proj1 (blank_term_is_empty 0 s eq_refl)). reflexivity.
Defined.

(** ** Cache keys *)

(** X3. Two different queries within Latin-1 never share a cache key:
    both keys exist and they differ. *)
Theorem distinct_queries_distinct_keys (q1 q2 : jsstring) :
  latin1 q1 = true -> latin1 q2 = true -> q1 <> q2 ->
  is_Some (getCacheKey q1) /\ is_Some (getCacheKey q2) /\
  getCacheKey q1 <> getCacheKey q2.
Proof.
  intros H1 H2 Hne.
  apply getCacheKey_defined in H1 as [k1 E1].
  apply getCacheKey_defined in H2 as [k2 E2].
  split; [ eauto | split; [ eauto | ] ].
  rewrite E1, E2. intros [= <-]. apply Hne.
  eapply getCacheKey_inj; eauto.
Qed.

Lemma distinct_queries_distinct_keys_witness :
  getCacheKey (lit "language:Go stars:>10")
  <> getCacheKey (lit "language:go stars:>10").
Proof.
  apply (distinct_queries_distinct_keys (lit "language:Go stars:>10")
           (lit "language:go stars:>10"));
    [ reflexivity | reflexivity | discriminate ].
Defined.

Lemma latin1_app (a b : jsstring) :
  latin1 (a ++ b) = latin1 a && latin1 b.
Proof. apply forallb_app. Qed.

(** X4. The cache key of the query built from a language and a term
    exists exactly when every code unit of both is at most 255. *)
Theorem search_key_iff_latin1 (language searchTerm : jsstring) :
  is_Some (getCacheKey (buildSearchQuery language searchTerm))
  <-> latin1 language = true /\ latin1 searchTerm = true.
Proof.
  rewrite getCacheKey_defined. unfold buildSearchQuery.
  destruct searchTerm as [|c t], language as [|c' l]; cbn [truthy andb];
    rewrite ?latin1_app;
    change (latin1 (lit " stars:>10")) with true;
    change (latin1 (lit " language:")) with true;
    change (latin1 (lit "language:")) with true;
    change (latin1 []) with true;
    rewrite ?andb_true_r, ?andb_true_l, ?andb_true_iff; tauto.
Qed.

Lemma search_key_iff_latin1_witness :
  getCacheKey (buildSearchQuery (lit "Go") nihongo) = None.
Proof.
  destruct (getCacheKey (buildSearchQuery (lit "Go") nihongo)) as [k|] eqn:E;
    [ | reflexivity ].
  assert (H : is_Some (getCacheKey (buildSearchQuery (lit "Go") nihongo)))
    by (rewrite E; eauto).
  apply search_key_iff_latin1 in H as [_ H]. discriminate H.
Defined.

(** ** Relative dates *)

(** X5. The label depends only on the distance between the two
    instants: a date in the future reads like the date as far in the
    past. *)
Theorem getRelativeTime_symmetric (now d : Z) :
  getRelativeTime now (now + d) = getRelativeTime now (now - d).
Proof.
  unfold getRelativeTime.
  replace (now - (now + d)) with (- d) by lia.
  replace (now - (now - d)) with d by lia.
  now rewrite Z.abs_opp.
Qed.

(** X6. The label understates the age by less than one of its units
    (day, 7 days, 30 days, 365 days), and its number is never 0:
    days run from 2 to 6, weeks from 1 to 4, months from 1 to 12, years
    from 1. *)
Theorem getRelativeTime_bounds (now date : Z) :
  let l := getRelativeTime now date in
  (MS_PER_DAY * label_days l <= Z.abs (now - date)
   < MS_PER_DAY * (label_days l + label_unit l)) /\
  match l with
  | Hoy | Ayer => True
  | HaceDias n => 2 <= n <= 6
  | HaceSemanas n => 1 <= n <= 4
  | HaceMeses n => 1 <= n <= 12
  | HaceAnos n => 1 <= n
  end.
Proof.
  unfold getRelativeTime. cbv zeta. unfold MS_PER_DAY.
  change (1000 * 60 * 60 * 24) with 86400000.
  set (a := Z.abs (now - date)).
  assert (Ha : 0 <= a) by apply Z.abs_nonneg.
  clearbody a.
  repeat match goal with
         | |- context [?x =? ?y] => destruct (Z.eqb_spec x y)
         | |- context [?x <? ?y] => destruct (Z.ltb_spec x y)
         end;
    cbn [label_days label_unit];
    Z.to_euclidean_division_equations; lia.
Qed.

(** ** More frame lemmas *)

Lemma run_app (tr1 tr2 : list (Z * Event)) (s : State) :
  run (tr1 ++ tr2) s = run tr2 (run tr1 s).
Proof.
  revert s. induction tr1 as [|[now e] tr1 IH]; intros s; simpl; trivial.
Qed.

Lemma abortIfLoading_view (s : State) :
  let s' := abortIfLoading s in
  refreshHidden s' = refreshHidden s /\ searchTimeout s' = searchTimeout s /\
  languageValue s' = languageValue s /\ searchTermValue s' = searchTermValue s.
Proof. unfold abortIfLoading, abort. case_state; repeat split. Qed.

Lemma settleAborted_view (s : State) :
  let s' := settleAborted s in
  refreshHidden s' = refreshHidden s /\ searchTimeout s' = searchTimeout s.
Proof. unfold settleAborted. case_state; repeat split. Qed.

Lemma step_clean now e (s : State) : clean (step now e s).
Proof. apply settleAborted_clean. Qed.


Lemma find_request_In (id : nat) (r : Request) (s : State) :
  find_request id s = Some r -> In r (inflight s) /\ rid r = id.
Proof.
  unfold find_request. intros H. apply find_some in H as [Hin Hid].
  split; [ exact Hin | now apply Nat.eqb_eq ].
Qed.

(** ** The debounce timer *)

(** X7. After a text input at time [now] the timer does nothing before
    [now + 800]: the state stays as the input left it.  From then on it
    fires once, resolving the language and the trimmed term read at the
    time of the input. *)
Theorem debounce_quiet_period (now now' : Z) (v : jsstring) (s : State) :
  let s1 := step now (EvInput v) s in
  (now' < now + DEBOUNCE_DELAY -> step now' EvTimer s1 = s1) /\
  (now + DEBOUNCE_DELAY <= now' -> searchTimeout s1 <> None ->
   step now' EvTimer s1
   = resolve now' (languageValue s) (trim v) (set_searchTimeout None s1)).
Proof.
  intros s1.
  assert (Hc : clean s1) by apply step_clean.
  assert (Ht : searchTimeout s1 = None \/
               searchTimeout s1
               = Some (now + DEBOUNCE_DELAY, languageValue s, trim v)).
  { unfold s1, step. simpl handle.
    destruct (settleAborted_view
                (handleSearchTermInput now (set_searchTermValue v s)))
      as (_ & ->).
    unfold handleSearchTermInput. cbv zeta. simpl.
    case_state; simpl; auto. }
  split.
  - intros Hlt. unfold step. simpl handle.
    destruct Ht as [-> | ->].
    + now apply settleAborted_id.
    + destruct (Z.leb_spec (now + DEBOUNCE_DELAY) now'); [ lia | ].
      now apply settleAborted_id.
  - intros Hge Hsome. unfold step. simpl handle.
    destruct Ht as [E | ->]; [ congruence | ].
    destruct (Z.leb_spec (now + DEBOUNCE_DELAY) now'); [ | lia ].
    reflexivity.
Qed.

Lemma debounce_quiet_period_witness :
  let s1 := step 0 (EvInput (lit "abc")) (init [] []) in
  step 799 EvTimer s1 = s1 /\ issued (step 800 EvTimer s1) = 1%nat.
Proof.
  intros s1. split.
  - apply (proj1 (debounce_quiet_period 0 799 (lit "abc") (init [] []))).
    reflexivity.
  - unfold s1.
    rewrite (proj2 (debounce_quiet_period 0 800 (lit "abc") (init [] []))).
    + reflexivity.
    + unfold DEBOUNCE_DELAY. lia.
    + vm_compute. discriminate.
Defined.

(** ** What is on screen *)

Lemma rendered_handleSearchSuccess (d : SearchResultSet) (s : State) :
  rendered_from_retained s -> rendered_from_retained (handleSearchSuccess d s).
Proof.
  unfold rendered_from_retained, handleSearchSuccess. intros [H1 H2].
  destruct (items d) as [|r l]; simpl; [ auto | ].
  split; [ auto | discriminate ].
Qed.

Lemma rendered_searchRepositories now language searchTerm (s : State) :
  rendered_from_retained s ->
  rendered_from_retained (searchRepositories now language searchTerm s).
Proof.
  intros H.
  assert (H0 : rendered_from_retained (abortIfLoading s)).
  { unfold rendered_from_retained.
    destruct (abortIfLoading_frame s) as (_ & _ & _ & _ & -> & -> & _).
    destruct (abortIfLoading_view s) as (-> & _). exact H. }
  unfold searchRepositories. cbv zeta.
  assert (F : forall q k, rendered_from_retained (startFetch q k (abortIfLoading s)))
    by (intros q k; split; simpl; [ tauto | discriminate ]).
  case_state; auto using rendered_handleSearchSuccess.
Qed.

Lemma rendered_settle now id resp (s : State) :
  rendered_from_retained s -> rendered_from_retained (settle now id resp s).
Proof.
  intros H. unfold settle.
  destruct (find_request id s) as [r|]; trivial.
  destruct (raborted r); trivial.
  destruct resp as [d| |]; cbv zeta; try exact H.
  apply (rendered_handleSearchSuccess d
           (set_cache (<[rkey r := mkEntry d now]> (cache (remove_request id s)))
              (remove_request id s))).
  exact H.
Qed.

Lemma rendered_showRandomRepository (p q : nat) (s : State) :
  rendered_from_retained s -> rendered_from_retained (showRandomRepository p q s).
Proof.
  intros H. unfold showRandomRepository.
  destruct (currentResults s) as [|c l] eqn:E; trivial.
  destruct (nth_error (c :: l) (p * length (c :: l) / q)) as [r|] eqn:N;
    trivial.
  destruct H as [_ H2]. split; simpl.
  - intros r' [<- | []]. rewrite E. eapply nth_error_In; eauto.
  - discriminate.
Qed.

Lemma rendered_step now e (s : State) :
  rendered_from_retained s -> rendered_from_retained (step now e s).
Proof.
  intros H. unfold step.
  assert (C : rendered_from_retained (clearResults s))
    by (split; simpl; [ tauto | discriminate ]).
  assert (H' : rendered_from_retained (handle now e s)).
  { destruct e; simpl.
    - unfold handleFormSubmit. case_state; trivial.
      now apply rendered_searchRepositories.
    - unfold handleLanguageChange. case_state; trivial.
      now apply rendered_searchRepositories.
    - unfold handleSearchTermInput. case_state; trivial.
    - case_state; trivial. now apply rendered_searchRepositories.
    - now apply rendered_searchRepositories.
    - now apply rendered_showRandomRepository.
    - exact C.
    - case_state; trivial.
    - now apply rendered_settle. }
  unfold rendered_from_retained.
  destruct (settleAborted_frame (handle now e s))
    as (_ & _ & _ & _ & -> & -> & _).
  destruct (settleAborted_view (handle now e s)) as (-> & _).
  exact H'.
Qed.

(** X8. However the events arrive, every card on screen shows an item
    of the retained result set, and the refresh button is visible only
    while a list is rendered: both hold after a run when they held
    before it. *)
Theorem rendered_run (tr : list (Z * Event)) (s : State) :
  rendered_from_retained s -> rendered_from_retained (run tr s).
Proof.
  revert s. induction tr as [|[now e] tr IH]; intros s H; simpl; trivial.
  apply IH. now apply rendered_step.
Qed.

Lemma rendered_run_witness :
  rendered_from_retained (run failed_after_success (init [] [])).
Proof.
  apply rendered_run. split; simpl; [ tauto | discriminate ].
Defined.

(** ** The cache over a run *)






(** ** Keys of requests and cache entries *)

Lemma keys_handleSearchSuccess (d : SearchResultSet) (s : State) :
  keys_consistent s -> keys_consistent (handleSearchSuccess d s).
Proof.
  unfold keys_consistent.
  now destruct (handleSearchSuccess_frame d s) as (-> & _ & -> & _).
Qed.

Lemma keys_abortIfLoading (s : State) :
  keys_consistent s -> keys_consistent (abortIfLoading s).
Proof.
  unfold keys_consistent. intros [H1 H2].
  destruct (abortIfLoading_frame s) as (-> & _). split; [ | exact H2 ].
  unfold abortIfLoading, abort. case_state; trivial. simpl.
  rewrite Forall_forall in *. intros r Hr.
  apply list_elem_of_In, in_map_iff in Hr as (r0 & <- & Hr0).
  apply list_elem_of_In, H1 in Hr0.
  now destruct (Nat.eqb (rid r0) n).
Qed.

Lemma keys_searchRepositories now language searchTerm (s : State) :
  keys_consistent s ->
  keys_consistent (searchRepositories now language searchTerm s).
Proof.
  intros H. apply keys_abortIfLoading in H.
  unfold searchRepositories. cbv zeta.
  destruct (getCacheKey (buildSearchQuery language searchTerm)) as [k|] eqn:K;
    trivial.
  assert (F : keys_consistent
                (startFetch (buildSearchQuery language searchTerm) k
                   (abortIfLoading s))).
  { destruct H as [H1 H2]. split; simpl; [ | exact H2 ].
    apply Forall_app. split; [ exact H1 | ].
    constructor; [ exact K | constructor ]. }
  case_state; auto using keys_handleSearchSuccess.
Qed.

Lemma keys_settle now id resp (s : State) :
  keys_consistent s -> keys_consistent (settle now id resp s).
Proof.
  intros H. unfold settle.
  destruct (find_request id s) as [r|] eqn:F; trivial.
  destruct (raborted r); trivial.
  assert (Hr : getCacheKey (rquery r) = Some (rkey r)).
  { destruct H as [H1 _]. rewrite Forall_forall in H1.
    apply H1, list_elem_of_In. now apply find_request_In in F as [F _]. }
  assert (H0 : keys_consistent (remove_request id s)).
  { destruct H as [H1 H2]. split; [ | exact H2 ]. simpl.
    rewrite Forall_forall in *. intros r' Hr'.
    apply list_elem_of_In, filter_In in Hr' as [Hr' _].
    now apply H1, list_elem_of_In. }
  destruct resp as [d| |]; cbv zeta; try exact H0.
  apply (keys_handleSearchSuccess d
           (set_cache (<[rkey r := mkEntry d now]> (cache (remove_request id s)))
              (remove_request id s))).
  destruct H0 as [H1 H2]. split; [ exact H1 | ].
  simpl. intros k Hk. apply lookup_insert_is_Some in Hk as [<- | [_ Hk]]; eauto.
Qed.

Lemma keys_step now e (s : State) :
  keys_consistent s -> keys_consistent (step now e s).
Proof.
  intros H. unfold step.
  assert (H' : keys_consistent (handle now e s)).
  { destruct e; simpl.
    - unfold handleFormSubmit. case_state; trivial.
      now apply keys_searchRepositories.
    - unfold handleLanguageChange. case_state; trivial.
      now apply keys_searchRepositories.
    - unfold handleSearchTermInput. case_state; trivial.
    - case_state; trivial. now apply keys_searchRepositories.
    - now apply keys_searchRepositories.
    - unfold showRandomRepository. case_state; trivial.
    - exact H.
    - case_state; trivial.
    - now apply keys_settle. }
  destruct H' as [H1 H2]. split.
  - rewrite inflight_settleAborted.
    rewrite Forall_forall in *. intros r Hr.
    apply list_elem_of_In, filter_In in Hr as [Hr _].
    now apply H1, list_elem_of_In.
  - now destruct (settleAborted_frame (handle now e s)) as (-> & _).
Qed.

(** X11. In every reachable state each pending request holds the cache
    key of the query it was issued for, and each cache entry sits under
    the key of some query. *)
Theorem keys_consistent_run (tr : list (Z * Event))
    (language searchTerm : jsstring) :
  keys_consistent (run tr (init language searchTerm)).
Proof.
  assert (G : forall s, keys_consistent s -> keys_consistent (run tr s)).
  { induction tr as [|[now e] tr IH]; intros s H; simpl; trivial.
    apply IH. now apply keys_step. }
  apply G. split; [ constructor | ].
  simpl. intros k [e He]. rewrite lookup_empty in He. discriminate.
Qed.

(** ** How far the loading flags can be trusted *)

Lemma well_tracked_frame (s s' : State) :
  inflight s' = inflight s -> isLoading s' = isLoading s ->
  abortController s' = abortController s -> issued s' = issued s ->
  well_tracked s -> well_tracked s'.
Proof.
  unfold well_tracked, clean, ids_bounded, tracking.
  now intros -> -> -> ->.
Qed.

Lemma well_tracked_settleAborted (s : State) :
  well_tracked s -> well_tracked (settleAborted s).
Proof. intros H. rewrite settleAborted_id; [ exact H | apply H ]. Qed.

Lemma abort_marks (c : nat) (r : Request) (s : State) :
  In r (inflight s) -> rid r = c ->
  existsb raborted (inflight (abort c s)) = true.
Proof.
  intros Hin Hid. apply existsb_exists.
  exists (mkRequest (rid r) (rquery r) (rkey r) true). split; trivial.
  unfold abort. simpl. apply in_map_iff. exists r. split; trivial.
  now rewrite Hid, Nat.eqb_refl.
Qed.

Lemma abort_spares (c : nat) (s : State) :
  Forall (fun r => raborted r = false -> rid r <> c) (inflight (abort c s)).
Proof.
  unfold abort. simpl. apply Forall_forall. intros r Hr.
  apply list_elem_of_In, in_map_iff in Hr as (r0 & <- & _).
  destruct (Nat.eqb_spec (rid r0) c); simpl; congruence.
Qed.

Lemma settleAborted_dirty (s : State) :
  existsb raborted (inflight s) = true ->
  isLoading (settleAborted s) = false /\
  abortController (settleAborted s) = None.
Proof. unfold settleAborted. now intros ->. Qed.

(** A resolution started while a fetch is tracked marks that fetch. *)
Lemma searchRepositories_marks now language searchTerm (c : nat) (s : State) :
  isLoading s = true -> abortController s = Some c ->
  (exists r, In r (inflight s) /\ rid r = c) ->
  existsb raborted (inflight (searchRepositories now language searchTerm s))
  = true.
Proof.
  intros Hl Hc (r & Hin & Hid).
  assert (A : existsb raborted (inflight (abortIfLoading s)) = true)
    by (unfold abortIfLoading; rewrite Hl, Hc; eapply abort_marks; eauto).
  destruct (searchRepositories_inflight now language searchTerm s)
    as [-> | (k & ->)]; [ exact A | ].
  rewrite existsb_app, A. reflexivity.
Qed.

Lemma well_tracked_resolve now language searchTerm (s : State) :
  well_tracked s -> well_tracked (resolve now language searchTerm s).
Proof.
  intros (Hc & Hb & Ht). unfold resolve.
  split; [ apply settleAborted_clean | ]. split.
  - eapply ids_bounded_filter; [ apply inflight_settleAborted | | ].
    + now destruct (settleAborted_frame
                      (searchRepositories now language searchTerm s))
        as (_ & -> & _).
    + now apply ids_bounded_searchRepositories.
  - unfold tracking in Ht.
    destruct (abortController s) as [c|] eqn:Ec.
    + destruct Ht as (Hl & _ & Hr).
      destruct (settleAborted_dirty
                  (searchRepositories now language searchTerm s)) as [Hl' Hc'].
      { eapply searchRepositories_marks; eauto. }
      unfold tracking. now rewrite Hc'.
    + assert (E : abortIfLoading s = s) by now apply abortIfLoading_idle.
      unfold searchRepositories. cbv zeta. rewrite E.
      assert (F : forall q k, tracking (settleAborted (startFetch q k s))).
      { intros q k. rewrite settleAborted_id.
        - unfold tracking, startFetch. simpl. repeat split.
          eexists. split; [ apply in_or_app; right; left; reflexivity | ].
          reflexivity.
        - unfold startFetch. simpl. rewrite existsb_app.
          unfold clean in Hc. now rewrite Hc. }
      assert (G : forall d, tracking (settleAborted (handleSearchSuccess d s))).
      { intros d. rewrite settleAborted_id.
        - unfold tracking.
          destruct (handleSearchSuccess_frame d s) as (_ & _ & _ & -> & ->).
          now rewrite Ec.
        - now destruct (handleSearchSuccess_frame d s) as (_ & _ & -> & _). }
      case_state; auto.
      rewrite settleAborted_id; [ | exact Hc ].
      unfold tracking. now rewrite Ec.
Qed.

Lemma well_tracked_settle now id resp (s : State) :
  well_tracked s -> well_tracked (settleAborted (settle now id resp s)).
Proof.
  intros H. unfold settle.
  destruct (find_request id s) as [r|] eqn:F;
    [ | now apply well_tracked_settleAborted ].
  destruct (raborted r); [ now apply well_tracked_settleAborted | ].
  destruct H as (Hc & Hb & _).
  assert (Hc' : clean (remove_request id s))
    by (unfold clean; simpl; now apply existsb_filter_false).
  assert (Hb' : ids_bounded (remove_request id s))
    by (eapply ids_bounded_filter; eauto; reflexivity).
  assert (G : forall s', inflight s' = inflight (remove_request id s) ->
                         issued s' = issued s ->
                         well_tracked (settleAborted (finally s'))).
  { intros s' Hi Hn. apply well_tracked_settleAborted.
    unfold well_tracked, clean, ids_bounded, tracking. simpl.
    rewrite Hi, Hn. auto. }
  destruct resp as [d| |]; cbv zeta; apply G; trivial.
  - now destruct (handleSearchSuccess_frame d
      (set_cache (<[rkey r := mkEntry d now]> (cache (remove_request id s)))
         (remove_request id s))) as (_ & _ & -> & _).
  - now destruct (handleSearchSuccess_frame d
      (set_cache (<[rkey r := mkEntry d now]> (cache (remove_request id s)))
         (remove_request id s))) as (_ & -> & _).
Qed.

Lemma well_tracked_step now e (s : State) :
  well_tracked s -> well_tracked (step now e s).
Proof.
  intros H. unfold step.
  destruct e; simpl.
  - unfold handleFormSubmit. case_state.
    + apply well_tracked_settleAborted.
      eapply well_tracked_frame; [ .. | exact H ]; reflexivity.
    + now apply well_tracked_resolve.
  - unfold handleLanguageChange. case_state.
    + apply well_tracked_resolve.
      eapply well_tracked_frame; [ .. | exact H ]; reflexivity.
    + apply well_tracked_settleAborted.
      eapply well_tracked_frame; [ .. | exact H ]; reflexivity.
    + apply well_tracked_settleAborted.
      eapply well_tracked_frame; [ .. | exact H ]; reflexivity.
  - apply well_tracked_settleAborted.
    unfold handleSearchTermInput. case_state;
      (eapply well_tracked_frame; [ .. | exact H ]; reflexivity).
  - case_state.
    + apply well_tracked_resolve.
      eapply well_tracked_frame; [ .. | exact H ]; reflexivity.
    + now apply well_tracked_settleAborted.
    + now apply well_tracked_settleAborted.
  - now apply well_tracked_resolve.
  - apply well_tracked_settleAborted.
    unfold showRandomRepository. case_state; trivial.
  - apply well_tracked_settleAborted.
    eapply well_tracked_frame; [ .. | exact H ]; reflexivity.
  - apply well_tracked_settleAborted. case_state; trivial.
  - now apply well_tracked_settle.
Qed.

Lemma well_tracked_run (tr : list (Z * Event)) (s : State) :
  well_tracked s -> well_tracked (run tr s).
Proof.
  revert s. induction tr as [|[now e] tr IH]; intros s H; simpl; trivial.
  apply IH. now apply well_tracked_step.
Qed.

Lemma well_tracked_init (language searchTerm : jsstring) :
  well_tracked (init language searchTerm).
Proof. repeat split. constructor. Qed.

Lemma live_clean (s : State) : clean s -> live s = inflight s.
Proof. apply filter_live_clean. Qed.

(** X12. In every reachable state [isLoading] is set exactly when
    [abortController] is not null, and the controller is then the one
    of the most recently issued fetch, which is still on the network. *)
Theorem tracking_reachable (tr : list (Z * Event))
    (language searchTerm : jsstring) :
  let s := run tr (init language searchTerm) in
  (isLoading s = true <-> abortController s <> None) /\
  forall c, abortController s = Some c ->
            S c = issued s /\ exists r, In r (live s) /\ rid r = c.
Proof.
  intros s.
  destruct (well_tracked_run tr _ (well_tracked_init language searchTerm))
    as (Hc & _ & Ht).
  fold s in Hc, Ht. unfold tracking in Ht.
  destruct (abortController s) as [c|].
  - destruct Ht as (Hl & Hi & Hr). split.
    + split; [ discriminate | trivial ].
    + intros c' [= <-]. split; trivial. now rewrite live_clean.
  - split.
    + rewrite Ht. split; [ discriminate | congruence ].
    + discriminate.
Qed.

(** X13. When a fetch is tracked, any new resolution removes it from
    the pending requests, whatever the resolution then does (cache hit,
    new fetch, or no key). *)
Theorem tracked_fetch_superseded (tr : list (Z * Event)) (l0 t0 : jsstring)
    (now : Z) (language searchTerm : jsstring) (c : nat) :
  let s := run tr (init l0 t0) in
  abortController s = Some c ->
  Forall (fun r => rid r <> c) (inflight (resolve now language searchTerm s)).
Proof.
  intros s Hc.
  destruct (well_tracked_run tr _ (well_tracked_init l0 t0)) as (_ & _ & Ht).
  fold s in Ht. unfold tracking in Ht. rewrite Hc in Ht.
  destruct Ht as (Hl & Hi & _).
  apply resolve_aborts_tracked; trivial. lia.
Qed.

Lemma tracked_fetch_superseded_witness :
  let s := run [(0, EvLanguageChange (lit "Go"))] (init [] []) in
  Forall (fun r => rid r <> 0%nat) (inflight (resolve 10 (lit "Rust") [] s)).
Proof.
  intros s.
  apply (tracked_fetch_superseded [(0, EvLanguageChange (lit "Go"))] [] []
           10 (lit "Rust") [] 0).
  reflexivity.
Defined.

(** X14. A search that starts a fetch while another fetch is tracked
    leaves its own fetch untracked: the loading status is shown and the
    new request is pending, but [isLoading] is false and
    [abortController] is null, so no later resolution aborts it. *)
Theorem superseding_search_untracked (tr : list (Z * Event))
    (l0 t0 : jsstring) (now : Z) (language searchTerm cacheKey : jsstring) :
  let s := run tr (init l0 t0) in
  let query := buildSearchQuery language searchTerm in
  let s' := resolve now language searchTerm s in
  let new := mkRequest (issued s) query cacheKey false in
  isLoading s = true ->
  getCacheKey query = Some cacheKey ->
  (forall e, cache s !! cacheKey = Some e ->
             CACHE_DURATION <= now - timestamp e) ->
  last (inflight s') = Some new /\ statusDiv s' = Some Loading /\
  isLoading s' = false /\ abortController s' = None /\
  forall now2 l2 t2, In new (live (resolve now2 l2 t2 s')).
Proof.
  intros s query s' new Hl Hk Hstale.
  destruct (well_tracked_run tr _ (well_tracked_init l0 t0)) as (_ & _ & Ht).
  fold s in Ht. unfold tracking in Ht.
  destruct (abortController s) as [c|] eqn:Ec; [ | congruence ].
  destruct Ht as (_ & _ & Hr).
  assert (X : searchRepositories now language searchTerm s
              = startFetch query cacheKey (abortIfLoading s)).
  { unfold searchRepositories. cbv zeta. fold query. rewrite Hk.
    destruct (abortIfLoading_frame s) as (-> & _).
    destruct (cache s !! cacheKey) as [e|] eqn:L; trivial.
    specialize (Hstale e eq_refl).
    now destruct (Z.ltb_spec (now - timestamp e) CACHE_DURATION); [ lia | ]. }
  assert (D : existsb raborted
                (inflight (searchRepositories now language searchTerm s)) = true)
    by (eapply searchRepositories_marks; eauto).
  assert (I : inflight s'
              = List.filter (fun r => negb (raborted r))
                  (inflight (abortIfLoading s)) ++ [new]).
  { unfold s', resolve. rewrite inflight_settleAborted, X.
    unfold startFetch. simpl. rewrite List.filter_app. simpl.
    now destruct (abortIfLoading_frame s) as (_ & -> & _). }
  assert (Hl' : isLoading s' = false) by now apply settleAborted_dirty.
  split; [ rewrite I; apply last_snoc | ].
  split.
  { unfold s', resolve.
    destruct (settleAborted_frame
                (searchRepositories now language searchTerm s))
      as (_ & _ & _ & -> & _).
    now rewrite X. }
  split; [ exact Hl' | ].
  split; [ now apply settleAborted_dirty | ].
  intros now2 l2 t2. rewrite live_clean by apply resolve_clean.
  unfold resolve. rewrite inflight_settleAborted.
  apply filter_In. split; [ | reflexivity ].
  destruct (searchRepositories_inflight now2 l2 t2 s') as [E | (k & E)];
    rewrite E, (abortIfLoading_idle s' Hl'), I;
    repeat (apply in_or_app; first [ now (right; left) | left ]).
Qed.

Lemma superseding_search_untracked_witness :
  let s := run [(0, EvLanguageChange (lit "Go"))] (init [] []) in
  let s' := resolve 10 (lit "Rust") [] s in
  statusDiv s' = Some Loading /\ isLoading s' = false /\
  abortController s' = None.
Proof.
  intros s s'.
  destruct (superseding_search_untracked
              [(0, EvLanguageChange (lit "Go"))] [] [] 10 (lit "Rust") []
              (lit "github_search_bGFuZ3VhZ2U6UnVzdCBzdGFyczo+MTA="))
    as (_ & Hs & Hl & Hc & _).
  - reflexivity.
  - reflexivity.
  - intros e He. vm_compute in He. discriminate.
  - split; [ exact Hs | split; [ exact Hl | exact Hc ] ].
Defined.

(** X15. A search whose query has no cache key (a code unit above 255)
    shows nothing and issues nothing, yet it has already aborted the
    tracked fetch: that request is gone, the loading flags are cleared
    and the status stays as it was. *)
Theorem unkeyed_search_cancels (tr : list (Z * Event)) (l0 t0 : jsstring)
    (now : Z) (language searchTerm : jsstring) :
  let s := run tr (init l0 t0) in
  let s' := resolve now language searchTerm s in
  getCacheKey (buildSearchQuery language searchTerm) = None ->
  issued s' = issued s /\ history s' = history s /\
  statusDiv s' = statusDiv s /\ resultsDiv s' = resultsDiv s /\
  isLoading s' = false /\ abortController s' = None /\
  forall c, abortController s = Some c ->
            Forall (fun r => rid r <> c) (inflight s').
Proof.
  intros s s' Hk.
  destruct (well_tracked_run tr _ (well_tracked_init l0 t0)) as (Hc & _ & Ht).
  fold s in Hc, Ht. unfold tracking in Ht.
  assert (X : searchRepositories now language searchTerm s = abortIfLoading s)
    by (unfold searchRepositories; cbv zeta; now rewrite Hk).
  unfold s', resolve. rewrite X.
  destruct (settleAborted_frame (abortIfLoading s))
    as (_ & -> & -> & -> & _ & -> & _).
  destruct (abortIfLoading_frame s) as (_ & -> & -> & -> & _ & -> & _).
  repeat (split; [ reflexivity | ]).
  destruct (abortController s) as [c|] eqn:Ec.
  - destruct Ht as (Hl & _ & r & Hin & Hid).
    assert (D : existsb raborted (inflight (abortIfLoading s)) = true)
      by (unfold abortIfLoading; rewrite Hl, Ec; eapply abort_marks; eauto).
    destruct (settleAborted_dirty _ D) as [-> ->].
    repeat split. intros c' [= <-].
    rewrite inflight_settleAborted. unfold abortIfLoading. rewrite Hl, Ec.
    pose proof (abort_spares c s) as A. rewrite Forall_forall in *.
    intros r' Hr'. apply list_elem_of_In, filter_In in Hr' as [Hr' Hlive].
    apply A; [ now apply list_elem_of_In | now apply negb_true_iff ].
  - rewrite (abortIfLoading_idle s Ht), (settleAborted_id s Hc).
    repeat split; trivial. discriminate.
Qed.

Lemma unkeyed_search_cancels_witness :
  let s := run [(0, EvLanguageChange (lit "Go"))] (init [] []) in
  let s' := resolve 10 [] nihongo s in
  statusDiv s' = Some Loading /\ inflight s' = [] /\ isLoading s' = false.
Proof.
  intros s s'.
  destruct (unkeyed_search_cancels [(0, EvLanguageChange (lit "Go"))] [] []
              10 [] nihongo) as (_ & _ & Hs & _ & Hl & _).
  - reflexivity.
  - split; [ exact Hs | split; [ reflexivity | exact Hl ] ].
Defined.

(** ** Fetches pile up *)

Lemma mark_others (c : nat) (l : list Request) :
  Forall (fun r => (rid r < c)%nat) l ->
  List.map (fun r => if Nat.eqb (rid r) c
                     then mkRequest (rid r) (rquery r) (rkey r) true
                     else r) l = l.
Proof.
  induction 1 as [|r l Hr Hl IH]; simpl; trivial.
  destruct (Nat.eqb_spec (rid r) c); [ lia | now rewrite IH ].
Qed.

Lemma retry_idle (n : nat) (s : State) :
  untracked_backlog n s ->
  step 0 EvRetry s
  = startFetch (lit "language:Go stars:>10")
      (lit "github_search_bGFuZ3VhZ2U6R28gc3RhcnM6PjEw") s.
Proof.
  intros (Hl & _ & Hc & Hcl & _ & _ & Hlang & Hterm).
  unfold step. simpl handle. unfold retrySearch, searchRepositories.
  cbv zeta. rewrite (abortIfLoading_idle s Hl), Hlang, Hterm.
  change (getCacheKey (buildSearchQuery (lit "Go") (trim [])))
    with (Some (lit "github_search_bGFuZ3VhZ2U6R28gc3RhcnM6PjEw")).
  change (buildSearchQuery (lit "Go") (trim []))
    with (lit "language:Go stars:>10").
  rewrite Hc, lookup_empty.
  apply settleAborted_id. unfold startFetch. simpl.
  rewrite existsb_app. unfold clean in Hcl. now rewrite Hcl.
Qed.

Lemma startFetch_fields (q k : jsstring) (s : State) :
  let s' := startFetch q k s in
  inflight s' = inflight s ++ [mkRequest (issued s) q k false] /\
  cache s' = cache s /\ issued s' = S (issued s) /\
  isLoading s' = true /\ abortController s' = Some (issued s) /\
  languageValue s' = languageValue s /\
  searchTermValue s' = searchTermValue s /\
  statusDiv s' = Some Loading.
Proof. repeat split. Qed.

Lemma retry_pair (n : nat) (s : State) :
  untracked_backlog n s ->
  untracked_backlog (S n) (step 0 EvRetry (step 0 EvRetry s)).
Proof.
  intros H. pose proof H as (Hl & Ha & Hc & Hcl & Hb & Hn & Hlang & Hterm).
  rewrite (retry_idle n s H).
  set (q := lit "language:Go stars:>10").
  set (k := lit "github_search_bGFuZ3VhZ2U6R28gc3RhcnM6PjEw").
  pose proof (ids_bounded_startFetch q k s Hb) as Hb1.
  pose proof (startFetch_fields q k s) as (F1 & F2 & F3 & F4 & F5 & F6 & F7 & _).
  cbv zeta in *.
  remember (startFetch q k s) as s1 eqn:E1. clear E1.
  rewrite Hc in F2. rewrite Hlang in F6. rewrite Hterm in F7.
  (* the second retry aborts the first fetch *)
  assert (A : inflight (abortIfLoading s1)
              = inflight s ++ [mkRequest (issued s) q k true]).
  { unfold abortIfLoading. rewrite F4, F5. unfold abort. simpl.
    rewrite F1, List.map_app, (mark_others _ _ Hb). simpl.
    now rewrite Nat.eqb_refl. }
  pose proof (abortIfLoading_frame s1) as (G1 & G2 & _).
  pose proof (abortIfLoading_view s1) as (_ & _ & G3 & G4).
  cbv zeta in *.
  assert (S2 : step 0 EvRetry s1
               = settleAborted (startFetch q k (abortIfLoading s1))).
  { unfold step. simpl handle. unfold retrySearch, searchRepositories.
    cbv zeta. rewrite F6, F7.
    change (getCacheKey (buildSearchQuery (lit "Go") (trim [])))
      with (Some k).
    change (buildSearchQuery (lit "Go") (trim [])) with q.
    cbv iota beta. now rewrite G1, F2, lookup_empty. }
  remember (abortIfLoading s1) as s1' eqn:E1'. clear E1'.
  rewrite F2 in G1. rewrite F3 in G2. rewrite F6 in G3. rewrite F7 in G4.
  pose proof (startFetch_fields q k s1')
    as (K1 & K2 & K3 & _ & _ & K6 & K7 & _).
  cbv zeta in *.
  remember (startFetch q k s1') as s2 eqn:E2. clear E2.
  rewrite A in K1. rewrite G1 in K2. rewrite G2 in K3.
  rewrite G3 in K6. rewrite G4 in K7.
  assert (D : existsb raborted (inflight s2) = true)
    by (rewrite K1, !existsb_app; simpl; now rewrite orb_true_r).
  pose proof (ids_bounded_step 0 EvRetry s1 Hb1) as Hb2.
  pose proof (step_clean 0 EvRetry s1) as Hcl2.
  rewrite S2 in *.
  destruct (settleAborted_dirty _ D) as [L2 C2].
  pose proof (settleAborted_frame s2) as (M1 & _ & _ & _ & _ & _ & M7 & M8).
  cbv zeta in *.
  repeat split; trivial; try congruence.
  rewrite inflight_settleAborted, K1, !List.filter_app. simpl.
  rewrite (filter_live_clean _ Hcl), !length_app. simpl. lia.
Qed.

Lemma burst_succ (n : nat) :
  burst (S n) = burst n ++ [(0, EvRetry); (0, EvRetry)].
Proof.
  unfold burst. replace (2 * S n)%nat with (2 * n + 2)%nat by lia.
  now rewrite repeat_app.
Qed.

Lemma burst_backlog (n : nat) :
  untracked_backlog n (run (burst n) (init (lit "Go") [])).
Proof.
  induction n as [|n IH].
  - repeat split. constructor.
  - rewrite burst_succ, run_app. simpl. now apply retry_pair.
Qed.

(** X16. The number of fetches on the network has no bound: with the
    language "Go" selected, [2 * n] retries in a row, none of them
    answered, leave [n] fetches pending and not aborted. *)
Theorem live_fetches_unbounded (n : nat) :
  length (live (run (burst n) (init (lit "Go") []))) = n.
Proof.
  destruct (burst_backlog n) as (_ & _ & _ & Hcl & _ & Hn & _).
  now rewrite live_clean.
Qed.

(** ** Resetting the form while a fetch is pending *)

(** X17. Emptying the term with no language selected shows the start
    prompt and clears the list, but the pending fetch is not aborted:
    when its response arrives with items, they are rendered and
    retained although both form fields are empty. *)
Theorem reset_keeps_pending_fetch (now now' : Z) (id : nat) (r : Request)
    (d : SearchResultSet) (s : State) :
  clean s -> find_request id s = Some r -> languageValue s = [] ->
  items d <> [] ->
  let s1 := step now (EvInput []) s in
  let s2 := step now' (EvSettle id (RespOk d)) s1 in
  (statusDiv s1 = Some PromptStart /\ resultsDiv s1 = [] /\
   inflight s1 = inflight s) /\
  statusDiv s2 = Some (Success d) /\ resultsDiv s2 = items d /\
  currentResults s2 = items d /\ refreshHidden s2 = false /\
  languageValue s2 = [] /\ searchTermValue s2 = [].
Proof.
  intros Hc Hf Hl Hd s1 s2.
  assert (E1 : s1 = clearResults (showStatus PromptStart
                 (set_searchTimeout None (set_searchTermValue [] s)))).
  { unfold s1, step. simpl handle. unfold handleSearchTermInput. cbv zeta.
    simpl languageValue. simpl searchTermValue. rewrite Hl.
    change (trim []) with (@nil N). simpl.
    now apply settleAborted_id. }
  assert (Ha : raborted r = false).
  { apply find_request_In in Hf as [Hin _].
    unfold clean in Hc. destruct (raborted r) eqn:A; trivial.
    assert (existsb raborted (inflight s) = true)
      by (apply existsb_exists; eauto).
    congruence. }
  split; [ now rewrite E1 | ].
  assert (E2 : s2 = finally (handleSearchSuccess d
                 (set_cache (<[rkey r := mkEntry d now']> (cache s1))
                    (remove_request id s1)))).
  { unfold s2, step. simpl handle.
    rewrite (settle_ok now' id r d s1); [ | now rewrite E1 | exact Ha ].
    apply settleAborted_id. unfold finally. simpl.
    destruct (handleSearchSuccess_frame d
                (set_cache (<[rkey r := mkEntry d now']> (cache s1))
                   (remove_request id s1))) as (_ & _ & -> & _).
    simpl. apply existsb_filter_false. now rewrite E1. }
  rewrite E2. unfold handleSearchSuccess.
  destruct (items d) as [|x l] eqn:I; [ congruence | ].
  rewrite E1. simpl. repeat split. exact Hl.
Qed.

Lemma reset_keeps_pending_fetch_witness :
  let s := run [(0, EvInput (lit "abc")); (800, EvTimer)] (init [] []) in
  let s2 := step 1000 (EvSettle 0 (RespOk sample)) (step 900 (EvInput []) s) in
  resultsDiv s2 = items sample /\ searchTermValue s2 = [].
Proof.
  intros s s2.
  destruct (reset_keeps_pending_fetch 900 1000 0
              (mkRequest 0 (lit "abc stars:>10")
                 (lit "github_search_YWJjIHN0YXJzOj4xMA==") false)
              sample s) as (_ & _ & Hr & _ & _ & _ & Ht).
  - reflexivity.
  - reflexivity.
  - reflexivity.
  - discriminate.
  - split; [ exact Hr | exact Ht ].
Defined.

(** ** Teardown *)

(** X18. In a reachable state [destroy], followed by the microtasks it
    leaves, empties the cache, disarms the debounce timer (a later
    timer event does nothing) and removes the tracked fetch from the
    pending requests.  Fetches that are pending without being tracked
    are not aborted: when the controller is null, every pending request
    stays pending. *)
Theorem destroy_teardown (tr : list (Z * Event)) (l0 t0 : jsstring) :
  let s := run tr (init l0 t0) in
  let s' := settleAborted (destroy s) in
  cache s' = ∅ /\ searchTimeout s' = None /\
  (forall now, step now EvTimer s' = s') /\
  (forall c, abortController s = Some c ->
             Forall (fun r => rid r <> c) (inflight s')) /\
  (abortController s = None -> inflight s' = inflight s).
Proof.
  intros s s'.
  destruct (well_tracked_run tr _ (well_tracked_init l0 t0)) as (Hc & _ & Ht).
  fold s in Hc, Ht.
  assert (C : cache s' = ∅).
  { unfold s'. destruct (settleAborted_frame (destroy s)) as (-> & _).
    unfold destroy, abort. cbv zeta. simpl. now case_state. }
  assert (T : searchTimeout s' = None).
  { unfold s'. destruct (settleAborted_view (destroy s)) as (_ & ->).
    unfold destroy, abort. cbv zeta. simpl. now case_state. }
  split; [ exact C | ]. split; [ exact T | ]. split.
  { intros now. unfold step. simpl handle. rewrite T.
    apply settleAborted_id. apply settleAborted_clean. }
  split.
  - intros c Ec. unfold s'. rewrite inflight_settleAborted.
    unfold destroy. cbv zeta. simpl abortController. rewrite Ec.
    pose proof (abort_spares c (set_searchTimeout None s)) as A.
    rewrite Forall_forall in *. intros r Hr.
    apply list_elem_of_In, filter_In in Hr as [Hr Hlive].
    apply A; [ now apply list_elem_of_In | now apply negb_true_iff ].
  - intros Ec. unfold s'. rewrite inflight_settleAborted.
    unfold destroy. cbv zeta. simpl abortController. rewrite Ec. simpl.
    now apply filter_live_clean.
Qed.

Lemma destroy_teardown_witness :
  let s := run (firstn 2 three_triggers) (init [] []) in
  List.map rid (inflight (settleAborted (destroy s))) = [1%nat].
Proof.
  intros s. unfold s.
  rewrite (proj2 (proj2 (proj2 (proj2
    (destroy_teardown (firstn 2 three_triggers) [] []))))).
  - reflexivity.
  - reflexivity.
Defined.

Lemma tracking_reachable_witness :
  let s := run [(0, EvLanguageChange (lit "Go"))] (init [] []) in
  isLoading s = true /\ issued s = 1%nat.
Proof.
  intros s.
  destruct (tracking_reachable [(0, EvLanguageChange (lit "Go"))] [] [])
    as [Hiff Htracked].
  split.
  - apply Hiff. discriminate.
  - symmetry. apply (Htracked 0%nat). reflexivity.
Defined.
